(** * UV curing chamber controller

    A shallow embedding of the two Arduino sketches of the curing chamber:
    [UVCuring/UVCuring.ino] (module [UVCuring]) and its earlier variant
    (module [Part000]).  The target is an AVR board: [int] is 16 bits wide,
    [unsigned long] is 32 bits wide and [float] is IEEE-754 binary32.

    Each pass through [loop()] is one tick.  What the hardware delivers during
    a pass is the input of the tick: the level read from the button pin, the
    two values returned by [check_Temperature], and the uptime at every call
    of [millis()].  The [Serial] output is not modelled. *)

From Stdlib Require Import ZArith Bool List Lia.
From Stdlib Require Import Reals Lra.
From Stdlib Require Import Floats.SpecFloat.
Import ListNotations.

Open Scope Z_scope.

(** ** Machine types *)

(** [unsigned long] arithmetic wraps around modulo 2^32. *)
Definition wrap32 (z : Z) : Z := z mod 2 ^ 32.

(** [millis()] is the uptime in milliseconds, held in an [unsigned long]:
    it rolls over after about fifty days. *)
Definition millis (uptime : Z) : Z := wrap32 uptime.

(** The two levels of a digital pin. *)
Inductive level : Set := LOW | HIGH.

Definition level_eqb (a b : level) : bool :=
  match a, b with
  | LOW, LOW | HIGH, HIGH => true
  | _, _ => false
  end.

(** ** Arithmetic on [float]

    [check_Temperature] is written once, over an interface of the [float]
    operations it uses, and read in two arithmetics.  In [Ideal] a [float] is
    a real number and every operation is exact; an operation that is not
    defined on the reals (a division by zero, the logarithm of a number that
    is not positive) has no result.  In [Binary32] a [float] is an IEEE-754
    single and every operation returns a value, possibly an infinity or a
    NaN, as the AVR software floating point does. *)

Class Arith (F : Type) : Type := {
  of_int : Z -> F;            (* an integer operand converted to float *)
  decimal : Z -> nat -> F;    (* the literal m / 10^e                  *)
  fadd : F -> F -> F;
  fsub : F -> F -> F;
  fdiv : F -> F -> option F;
  flog : F -> option F;
  to_int : F -> option Z      (* the conversion of a returned float to int *)
}.

Definition bind {A B : Type} (x : option A) (f : A -> option B) : option B :=
  match x with
  | Some a => f a
  | None => None
  end.

Notation "x <- e ;; k" := (bind e (fun x => k))
  (at level 61, e at next level, right associativity).

(** [int] is 16 bits wide; a value out of range wraps on conversion. *)
Definition INT_MIN : Z := -32768.
Definition INT_MAX : Z := 32767.
Definition in_int (z : Z) : bool := (INT_MIN <=? z) && (z <=? INT_MAX).
Definition int16 (z : Z) : Z := (z + 32768) mod 65536 - 32768.

(** *** Exact real arithmetic *)

(** Truncation toward zero. *)
Definition Rtrunc (x : R) : Z :=
  if Rle_dec 0 x then Int_part x else - Int_part (- x).

#[export] Instance Ideal : Arith R := {
  of_int := IZR;
  decimal m e := (IZR m / 10 ^ e)%R;
  fadd := Rplus;
  fsub := Rminus;
  fdiv x y := if Req_EM_T y 0%R then None else Some (x / y)%R;
  flog x := if Rlt_dec 0 x then Some (ln x) else None;
  to_int x := let z := Rtrunc x in if in_int z then Some z else None
}.

(** *** IEEE-754 binary32 *)

Module Binary32.

Definition prec : Z := 24.
Definition emax : Z := 128.

Definition of_Z (z : Z) : spec_float := binary_normalize prec emax z 0 false.
Definition add : spec_float -> spec_float -> spec_float := SFadd prec emax.
Definition sub : spec_float -> spec_float -> spec_float := SFsub prec emax.
Definition div : spec_float -> spec_float -> spec_float := SFdiv prec emax.

(** A decimal literal is the float nearest to it, which is what the
    correctly rounded quotient of the two integers gives. *)
Definition literal (m : Z) (e : nat) : spec_float :=
  div (of_Z m) (of_Z (10 ^ Z.of_nat e)).

(** Truncation toward zero; the conversion of an infinity, of a NaN or of a
    value outside [int] is not defined. *)
Definition trunc (x : spec_float) : option Z :=
  match x with
  | S754_zero _ => Some 0
  | S754_finite s m e =>
      let n := match e with
               | Zneg p => Z.pos m / 2 ^ Z.pos p
               | _ => Z.pos m * 2 ^ e
               end in
      let z := if s then - n else n in
      if in_int z then Some z else None
  | S754_infinity _ | S754_nan => None
  end.

(** The arithmetic, over the [log] of the C library. *)
Definition arith (log : spec_float -> spec_float) : Arith spec_float := {|
  of_int := of_Z;
  decimal := literal;
  fadd := add;
  fsub := sub;
  fdiv x y := Some (div x y);
  flog x := Some (log x);
  to_int := trunc
|}.

(** What C99 asks of [log] at the two ends of its domain. *)
Definition log_at_ends (log : spec_float -> spec_float) : Prop :=
  log (S754_infinity false) = S754_infinity false /\
  log (S754_zero false) = S754_infinity true.

(** A coarse logarithm, exact at the ends: the binary exponent of a positive
    finite argument, NaN for a negative one. *)
Definition coarse_log (x : spec_float) : spec_float :=
  match x with
  | S754_zero _ => S754_infinity true
  | S754_infinity false => S754_infinity false
  | S754_finite false m e => of_Z (Z.log2 (Z.pos m) + e)
  | _ => S754_nan
  end.

End Binary32.

(** The five output pins the sketches drive. *)
Record pins : Set := mkPins {
  relay_one : level;   (* pin 12, heater bed *)
  relay_two : level;   (* pin 11, UV LEDs *)
  LED01 : level;       (* first red LED *)
  LED02 : level;       (* second red LED *)
  LED03 : level        (* amber power LED *)
}.

(** ** UVCuring.ino: button, timestamps and cycle decision *)

Module UVCuring.

Definition target_temp : Z := 60.
Definition target_time : Z := 7200000.
Definition debounceDelay : Z := 75.

(** The global variables of the sketch.  [box_temp] and [plate_temp] are
    [float] variables, but they only ever receive the [int] returned by
    [check_Temperature], so they hold integers. *)
Record state : Set := mkState {
  box_temp : Z;
  plate_temp : Z;
  heating : bool;
  cycle_run : bool;
  buttonState : level;
  lastButtonState : level;
  lastDebounceTime : Z;
  start_time : Z;
  finish_time : Z;
  out : pins
}.

Definition set_temps (b p : Z) (s : state) : state :=
  mkState b p (heating s) (cycle_run s) (buttonState s) (lastButtonState s)
          (lastDebounceTime s) (start_time s) (finish_time s) (out s).
Definition set_heating (h : bool) (s : state) : state :=
  mkState (box_temp s) (plate_temp s) h (cycle_run s) (buttonState s)
          (lastButtonState s) (lastDebounceTime s) (start_time s)
          (finish_time s) (out s).
Definition set_cycle_run (r : bool) (s : state) : state :=
  mkState (box_temp s) (plate_temp s) (heating s) r (buttonState s)
          (lastButtonState s) (lastDebounceTime s) (start_time s)
          (finish_time s) (out s).
Definition set_buttonState (l : level) (s : state) : state :=
  mkState (box_temp s) (plate_temp s) (heating s) (cycle_run s) l
          (lastButtonState s) (lastDebounceTime s) (start_time s)
          (finish_time s) (out s).
Definition set_lastButtonState (l : level) (s : state) : state :=
  mkState (box_temp s) (plate_temp s) (heating s) (cycle_run s)
          (buttonState s) l (lastDebounceTime s) (start_time s)
          (finish_time s) (out s).
Definition set_lastDebounceTime (t : Z) (s : state) : state :=
  mkState (box_temp s) (plate_temp s) (heating s) (cycle_run s)
          (buttonState s) (lastButtonState s) t (start_time s)
          (finish_time s) (out s).
Definition set_start_time (t : Z) (s : state) : state :=
  mkState (box_temp s) (plate_temp s) (heating s) (cycle_run s)
          (buttonState s) (lastButtonState s) (lastDebounceTime s) t
          (finish_time s) (out s).
Definition set_finish_time (t : Z) (s : state) : state :=
  mkState (box_temp s) (plate_temp s) (heating s) (cycle_run s)
          (buttonState s) (lastButtonState s) (lastDebounceTime s)
          (start_time s) t (out s).
Definition set_out (o : pins) (s : state) : state :=
  mkState (box_temp s) (plate_temp s) (heating s) (cycle_run s)
          (buttonState s) (lastButtonState s) (lastDebounceTime s)
          (start_time s) (finish_time s) o.

(** The uptime at each call of [millis()] in one pass of [loop()].  A call
    that the pass does not reach leaves its field unused. *)
Record clock : Set := mkClock {
  t_edge : Z;      (* lastDebounceTime = millis()                 *)
  t_settle : Z;    (* (millis() - lastDebounceTime) > debounceDelay *)
  t_press : Z;     (* finish_time = millis() + target_time        *)
  t_start : Z;     (* start_time = millis()                       *)
  t_expire : Z;    (* finish_time <= millis()                     *)
  t_heat : Z;      (* finish_time > millis(), heating branch      *)
  t_hold : Z       (* finish_time > millis(), at-temperature branch *)
}.

(** A clock that shows the same uptime at every call. *)
Definition steady (now : Z) : clock := mkClock now now now now now now now.

(** The inputs of one pass. *)
Record tick : Set := mkTick {
  box : Z;           (* check_Temperature(box_thermistor)   *)
  plate : Z;         (* check_Temperature(plate_thermistor) *)
  reading : level;   (* digitalRead(go_button)              *)
  clk : clock
}.

(** [setup()], together with the zero initialisation of the globals. *)
Definition idle_pins : pins := mkPins LOW LOW LOW LOW HIGH.
Definition heating_pins : pins := mkPins HIGH HIGH HIGH HIGH LOW.
Definition hold_pins : pins := mkPins HIGH LOW HIGH LOW LOW.

Definition setup : state :=
  mkState 0 0 false false LOW LOW 0 0 0 idle_pins.

(** The two temperature readings that open the pass. *)
Definition sense (i : tick) (s : state) : state :=
  set_temps (box i) (plate i) s.

(** The debounce block. *)
Definition debounce (i : tick) (s : state) : state :=
  let s :=
    if level_eqb (reading i) (lastButtonState s) then s
    else set_lastDebounceTime (millis (t_edge (clk i))) s in
  if wrap32 (millis (t_settle (clk i)) - lastDebounceTime s) >? debounceDelay
  then
    if level_eqb (reading i) (buttonState s) then s
    else
      let s := set_buttonState (reading i) s in
      if level_eqb (buttonState s) LOW then
        set_finish_time (wrap32 (millis (t_press (clk i)) + target_time))
          (set_cycle_run (negb (cycle_run s)) s)
      else s
  else s.

(** The block that stamps or clears the two timestamps. *)
Definition stamp (i : tick) (s : state) : state :=
  if cycle_run s then set_start_time (millis (t_start (clk i))) s
  else set_start_time 0 (set_finish_time 0 s).

(** The chain that runs or terminates the curing process.  The conditions
    are evaluated left to right and short-circuit, as [&&] does. *)
Definition decide (i : tick) (s : state) : state :=
  if negb (cycle_run s) then
    set_out idle_pins (set_heating false s)
  else if cycle_run s && (finish_time s <=? millis (t_expire (clk i))) then
    set_out idle_pins (set_heating false (set_cycle_run false s))
  else if cycle_run s && (finish_time s >? millis (t_heat (clk i)))
          && (plate_temp s <? target_temp) then
    set_out heating_pins (set_heating true s)
  else if cycle_run s && (finish_time s >? millis (t_hold (clk i)))
          && (plate_temp s >=? target_temp) then
    set_out hold_pins (set_heating false s)
  else
    set_out idle_pins (set_heating false s).

(** The state in which the decision chain is entered. *)
Definition armed (i : tick) (s : state) : state :=
  stamp i (debounce i (sense i s)).

(** One pass of [loop()]. *)
Definition loop (i : tick) (s : state) : state :=
  set_lastButtonState (reading i) (decide i (armed i s)).

(** The time remaining that the pass reports, in whole minutes. *)
Definition minutes (s : state) : Z :=
  wrap32 (finish_time s - start_time s) / 60000.

(** A run of the sketch: [setup()], then one pass per tick. *)
Definition run (tr : list tick) (s : state) : state :=
  fold_left (fun s i => loop i s) tr s.

(** *** Events of a run *)

(** The raw reading differs from the reading of the pass before. *)
Definition raw_edge (i : tick) (s : state) : bool :=
  negb (level_eqb (reading i) (lastButtonState s)).

(** The value of [lastDebounceTime] the pass tests, and the test. *)
Definition settle_time (i : tick) (s : state) : Z :=
  if level_eqb (reading i) (lastButtonState s) then lastDebounceTime s
  else millis (t_edge (clk i)).

Definition settled (i : tick) (s : state) : bool :=
  wrap32 (millis (t_settle (clk i)) - settle_time i s) >? debounceDelay.

(** The debounced state [buttonState] changes in the pass. *)
Definition committed (i : tick) (s : state) : bool :=
  negb (level_eqb (buttonState (loop i s)) (buttonState s)).

(** It changes to pressed: the button pin is pulled up and reads LOW while
    the button is down. *)
Definition press_edge (i : tick) (s : state) : bool :=
  committed i s && level_eqb (buttonState (loop i s)) LOW.

(** The debounce block flips [cycle_run] in the pass. *)
Definition toggled (i : tick) (s : state) : bool :=
  xorb (cycle_run (debounce i (sense i s))) (cycle_run s).

(** The number of passes of a run in which an event occurs. *)
Fixpoint count (ev : tick -> state -> bool) (tr : list tick) (s : state)
  : nat :=
  match tr with
  | [] => 0%nat
  | i :: tr => ((if ev i s then 1 else 0) + count ev tr (loop i s))%nat
  end.

(** The calls of [millis()] in a pass follow one another in time. *)
Definition in_order (c : clock) : Prop :=
  t_edge c <= t_settle c /\ t_settle c <= t_press c /\
  t_press c <= t_start c /\ t_start c <= t_expire c /\
  t_expire c <= t_heat c /\ t_heat c <= t_hold c.

(** The passes of a run follow one another in time, from uptime [from]. *)
Fixpoint chronological (from : Z) (tr : list tick) : Prop :=
  match tr with
  | [] => True
  | i :: tr =>
      from <= t_edge (clk i) /\ in_order (clk i) /\
      chronological (t_hold (clk i)) tr
  end.

(** Up to the settle test of pass [i], the last pass of the run, the reading
    has been the same for more than [d] milliseconds: from some pass [j] on,
    every pass read what [i] reads, and the test of [i] comes more than [d]
    after [j] took its timestamp. *)
Definition stable_for (d : Z) (tr : list tick) (i : tick) : Prop :=
  exists before j after,
    tr ++ [i] = before ++ j :: after /\
    Forall (fun k => reading k = reading i) (j :: after) /\
    d < t_settle (clk i) - t_edge (clk j).

(** Either the debounced state agrees with the last reading, or
    [lastDebounceTime] is the timestamp of a pass since which every pass has
    read the same level. *)
Definition tracked (tr : list tick) (s : state) : Prop :=
  buttonState s = lastButtonState s \/
  exists before j after,
    tr = before ++ j :: after /\
    Forall (fun k => reading k = lastButtonState s) (j :: after) /\
    lastDebounceTime s = millis (t_edge (clk j)).

(** The relays close, and switch their load on, when driven HIGH. *)
Definition energized (l : level) : Prop := l = HIGH.

(** *** check_Temperature *)

Definition NUMSAMPLES : nat := 5.
Definition THERMISTORNOMINAL : Z := 100000.
Definition TEMPERATURENOMINAL : Z := 25.
Definition BCOEFFICIENT : Z := 3950.
Definition RESISTANCE : Z := 100000.

(** The sampling loop: [analogRead k] is the value of the k-th conversion. *)
Definition take_samples (analogRead : nat -> Z) : list Z :=
  map analogRead (seq 0 NUMSAMPLES).

(** The sum of the samples; their mean is [total samples / NUMSAMPLES]. *)
Definition total (samples : list Z) : Z := fold_left Z.add samples 0.

Section Temperature.
Context {F : Type} {A : Arith F}.

(** The averaging loop and [average /= NUMSAMPLES]. *)
Definition adc_average (samples : list Z) : option F :=
  let average := fold_left (fun a x => fadd a (of_int x)) samples (of_int 0) in
  fdiv average (of_int (Z.of_nat NUMSAMPLES)).

(** [res = RESISTANCE / (1023 / average - 1)]. *)
Definition resistance (average : F) : option F :=
  q <- fdiv (of_int 1023) average ;;
  fdiv (of_int RESISTANCE) (fsub q (of_int 1)).

(** The B-parameter equation, statement by statement. *)
Definition steinhart_hart (res : F) : option F :=
  steinhart <- fdiv res (of_int THERMISTORNOMINAL) ;;
  steinhart <- flog steinhart ;;
  steinhart <- fdiv steinhart (of_int BCOEFFICIENT) ;;
  k <- fdiv (decimal 10 1)
            (fadd (of_int TEMPERATURENOMINAL) (decimal 27315 2)) ;;
  let steinhart := fadd steinhart k in
  steinhart <- fdiv (decimal 10 1) steinhart ;;
  Some (fsub steinhart (decimal 27315 2)).

(** The function returns [int]: the float is truncated on return. *)
Definition check_Temperature (analogRead : nat -> Z) : option Z :=
  average <- adc_average (take_samples analogRead) ;;
  res <- resistance average ;;
  steinhart <- steinhart_hart res ;;
  to_int steinhart.

End Temperature.

End UVCuring.

(** ** The earlier variant of the sketch *)

Module Part000.

Definition NUMSAMPLES : nat := 5.
Definition THERMISTORNOMINAL : Z := 10000.
Definition TEMPERATURENOMINAL : Z := 25.
Definition BCOEFFICIENT : Z := 3950.

(** [const int resistance = 100000] does not fit an [int]. *)
Definition resistance : Z := int16 100000.

(** *** Button and cycle decision *)

Definition target_temp : Z := 60.
Definition target_time : Z := 10000.
Definition debounceDelay : Z := 50.

Record state : Set := mkState {
  box_temp : Z;
  plate_temp : Z;
  heating : bool;
  cycle_run : bool;
  buttonState : level;
  lastButtonState : level;
  lastDebounceTime : Z;
  finish_time : Z;
  out : pins
}.

Record clock : Set := mkClock {
  t_edge : Z;
  t_settle : Z;
  t_press : Z;
  t_expire : Z;
  t_heat : Z;
  t_hold : Z
}.

Definition steady (now : Z) : clock := mkClock now now now now now now.

Record tick : Set := mkTick {
  box : Z;
  plate : Z;
  reading : level;
  clk : clock
}.

(** [setup()]: here the relays close when driven LOW, and are opened. *)
Definition setup : state :=
  mkState 0 0 false false LOW LOW 0 0 (mkPins HIGH HIGH LOW LOW HIGH).

(** The two temperature readings that open the pass. *)
Definition sense (i : tick) (s : state) : state :=
  mkState (box i) (plate i) (heating s) (cycle_run s) (buttonState s)
          (lastButtonState s) (lastDebounceTime s) (finish_time s) (out s).

(** The debounce block; here the button reads HIGH while it is down. *)
Definition debounce (i : tick) (s : state) : state :=
  let last :=
    if level_eqb (reading i) (lastButtonState s) then lastDebounceTime s
    else millis (t_edge (clk i)) in
  let changed :=
    (wrap32 (millis (t_settle (clk i)) - last) >? debounceDelay)
    && negb (level_eqb (reading i) (buttonState s)) in
  let button := if changed then reading i else buttonState s in
  let toggled := changed && level_eqb button HIGH in
  mkState (box_temp s) (plate_temp s) (heating s)
          (if toggled then negb (cycle_run s) else cycle_run s)
          button (lastButtonState s) last
          (if toggled then wrap32 (millis (t_press (clk i)) + target_time)
           else finish_time s)
          (out s).

(** One branch of the decision chain: the flags and the four pins it
    writes.  The amber LED is not written after [setup()]. *)
Definition act (run heat : bool) (r1 r2 l1 l2 : level) (s : state) : state :=
  mkState (box_temp s) (plate_temp s) heat run (buttonState s)
          (lastButtonState s) (lastDebounceTime s) (finish_time s)
          (mkPins r1 r2 l1 l2 (LED03 (out s))).

(** The decision chain; it compares the box temperature. *)
Definition decide (i : tick) (s : state) : state :=
  if negb (cycle_run s) then
    act (cycle_run s) false HIGH HIGH LOW LOW s
  else if cycle_run s && (finish_time s <=? millis (t_expire (clk i))) then
    act false false HIGH HIGH LOW LOW s
  else if cycle_run s && (finish_time s >? millis (t_heat (clk i)))
          && (box_temp s <? target_temp) then
    act (cycle_run s) true LOW LOW HIGH HIGH s
  else if cycle_run s && (finish_time s >? millis (t_hold (clk i)))
          && (box_temp s >=? target_temp) then
    act (cycle_run s) false HIGH LOW HIGH LOW s
  else
    act (cycle_run s) false HIGH HIGH LOW LOW s.

Definition armed (i : tick) (s : state) : state := debounce i (sense i s).

Definition loop (i : tick) (s : state) : state :=
  let s := decide i (armed i s) in
  mkState (box_temp s) (plate_temp s) (heating s) (cycle_run s)
          (buttonState s) (reading i) (lastDebounceTime s) (finish_time s)
          (out s).

(** A run of the variant: [setup()], then one pass per tick. *)
Definition run (tr : list tick) (s : state) : state :=
  fold_left (fun s i => loop i s) tr s.

(** The relays close, and switch their load on, when driven LOW. *)
Definition closed (l : level) : Prop := l = LOW.

(** *** check_Temperature *)

Definition take_samples (analogRead : nat -> Z) : list Z :=
  map analogRead (seq 0 NUMSAMPLES).

Section Temperature.
Context {F : Type} {A : Arith F}.

(** [check_Temperature(p, r)].  The statement
    [steinhart =+ 1.0 / TEMPERATURENOMINAL + 273.15] is an assignment of
    [+(1.0 / TEMPERATURENOMINAL + 273.15)]. *)
Definition check_Temperature (analogRead : nat -> Z) (r : Z) : option Z :=
  let res := r in
  let samples := take_samples analogRead in
  let average := fold_left (fun a x => fadd a (of_int x)) samples (of_int 0) in
  average <- fdiv average (of_int (Z.of_nat NUMSAMPLES)) ;;
  q <- fdiv (of_int 1023) average ;;
  let average := fsub q (of_int 1) in
  average <- fdiv (of_int res) average ;;
  steinhart <- fdiv average (of_int THERMISTORNOMINAL) ;;
  steinhart <- flog steinhart ;;
  steinhart <- fdiv steinhart (of_int BCOEFFICIENT) ;;
  k <- fdiv (decimal 10 1) (of_int TEMPERATURENOMINAL) ;;
  let steinhart := fadd k (decimal 27315 2) in
  steinhart <- fdiv (decimal 10 1) steinhart ;;
  let steinhart := fsub steinhart (decimal 27315 2) in
  to_int steinhart.

End Temperature.

End Part000.

(** ** Sample inputs *)

Module Samples.
Import UVCuring.

(** A pass during which the clock stands at [now]. *)
Definition pass (now : Z) (r : level) (plate : Z) : tick :=
  mkTick 20 plate r (steady now).

(** Release, settle, press: the press is seen but has not settled. *)
Definition pressing (plate : Z) : list tick :=
  [pass 100 HIGH plate; pass 200 HIGH plate; pass 300 LOW plate].

(** The press settles: the cycle starts in the fourth pass. *)
Definition start_up (plate : Z) : list tick :=
  pressing plate ++ [pass 400 LOW plate].

(** The button is let go, and the release settles. *)
Definition let_go (plate : Z) : list tick :=
  [pass 500 HIGH plate; pass 600 HIGH plate].

(** A cycle under way: started at uptime 400, the button released. *)
Definition under_way : state :=
  mkState 20 20 true true HIGH HIGH 500 600 (400 + target_time)
          heating_pins.

(** A bounce: the reading falls at 1000 and rises again at 1050, then rests. *)
Definition bounce : list tick :=
  [pass 1000 LOW 20; pass 1050 HIGH 20; pass 1150 HIGH 20; pass 1250 HIGH 20].

End Samples.

(** Further sample inputs. *)

Module Cases.

(** A pass in which the clock moves on between the expiry test and the
    tests of the two running branches. *)
Definition slipping (before after : Z) : UVCuring.tick :=
  UVCuring.mkTick 20 20 HIGH
    (UVCuring.mkClock before before before before before after after).


(** A pass of the variant during which the clock stands at [now]. *)
Definition pass (now : Z) (r : level) (box : Z) : Part000.tick :=
  Part000.mkTick box 20 r (Part000.steady now).

(** In the variant the button reads HIGH while it is down: press, settle. *)
Definition start_up (box : Z) : list Part000.tick :=
  [pass 100 HIGH box; pass 200 HIGH box].

End Cases.

(** * Properties *)

Lemma level_eqb_spec (a b : level) : reflect (a = b) (level_eqb a b).
Proof. destruct a, b; constructor; congruence. Qed.

Lemma level_eqb_refl (a : level) : level_eqb a a = true.
Proof. now destruct a. Qed.

Lemma wrap32_range (z : Z) : 0 <= wrap32 z < 2 ^ 32.
Proof. unfold wrap32. apply Z.mod_pos_bound. lia. Qed.

(** ** The cycle decision of UVCuring.ino *)

Module Cycle.
Import UVCuring.

Lemma run_snoc (tr : list tick) (i : tick) (s : state) :
  run (tr ++ [i]) s = loop i (run tr s).
Proof. unfold run. now rewrite fold_left_app. Qed.

(** The four outcomes of the decision chain, by the conditions the chain
    tests. *)
Lemma decide_idle (i : tick) (s : state) :
  cycle_run s = false ->
  decide i s = set_out idle_pins (set_heating false s).
Proof. intros H. unfold decide. now rewrite H. Qed.

Lemma decide_expired (i : tick) (s : state) :
  cycle_run s = true ->
  finish_time s <= millis (t_expire (clk i)) ->
  decide i s = set_out idle_pins (set_heating false (set_cycle_run false s)).
Proof.
  intros H Hle. unfold decide. rewrite H. cbn [negb andb].
  apply Z.leb_le in Hle. now rewrite Hle.
Qed.

Lemma decide_heating (i : tick) (s : state) :
  cycle_run s = true ->
  finish_time s > millis (t_expire (clk i)) ->
  finish_time s > millis (t_heat (clk i)) ->
  plate_temp s < target_temp ->
  decide i s = set_out heating_pins (set_heating true s).
Proof.
  intros H He Hh Ht. unfold decide. rewrite H. cbn [negb andb].
  replace (finish_time s <=? millis (t_expire (clk i))) with false
    by (symmetry; apply Z.leb_gt; lia).
  replace (finish_time s >? millis (t_heat (clk i))) with true
    by (symmetry; apply Z.gtb_lt; lia).
  replace (plate_temp s <? target_temp) with true
    by (symmetry; apply Z.ltb_lt; lia).
  reflexivity.
Qed.

Lemma decide_hold (i : tick) (s : state) :
  cycle_run s = true ->
  finish_time s > millis (t_expire (clk i)) ->
  finish_time s > millis (t_hold (clk i)) ->
  plate_temp s >= target_temp ->
  decide i s = set_out hold_pins (set_heating false s).
Proof.
  intros H He Hh Ht. unfold decide. rewrite H. cbn [negb andb].
  replace (finish_time s <=? millis (t_expire (clk i))) with false
    by (symmetry; apply Z.leb_gt; lia).
  replace (plate_temp s <? target_temp) with false
    by (symmetry; apply Z.ltb_ge; lia).
  rewrite andb_false_r.
  replace (finish_time s >? millis (t_hold (clk i))) with true
    by (symmetry; apply Z.gtb_lt; lia).
  replace (plate_temp s >=? target_temp) with true
    by (symmetry; apply Z.geb_le; lia).
  reflexivity.
Qed.

(** C1, as the code has it.  When the decision chain is entered with the
    cycle running, [finish_time] above the clock and the plate at or above
    the target, the pass clears [heating] and drives the heater relay
    (relay_one) HIGH, the level that energizes it, and the UV relay
    (relay_two) LOW, the level that releases it; the first red LED is on,
    the second red LED and the amber LED are off. *)
Theorem at_temperature_outputs (i : tick) (s : state) :
  cycle_run (armed i s) = true ->
  finish_time (armed i s) > millis (t_expire (clk i)) ->
  finish_time (armed i s) > millis (t_hold (clk i)) ->
  plate_temp (armed i s) >= target_temp ->
  heating (loop i s) = false /\
  cycle_run (loop i s) = true /\
  out (loop i s) = mkPins HIGH LOW HIGH LOW LOW /\
  energized (relay_one (out (loop i s))) /\
  ~ energized (relay_two (out (loop i s))).
Proof.
  intros Hr He Hh Ht. unfold loop.
  rewrite (decide_hold _ _ Hr He Hh Ht). cbn.
  repeat split; try assumption. unfold energized. discriminate.
Qed.

Lemma at_temperature_outputs_witness :
  out (loop (Samples.pass 2000 HIGH 65) Samples.under_way)
  = mkPins HIGH LOW HIGH LOW LOW.
Proof.
  apply (at_temperature_outputs (Samples.pass 2000 HIGH 65) Samples.under_way);
    vm_compute; congruence.
Defined.

(** The same branch in the earlier variant, where the relays close when
    driven LOW: the heater relay (relay_one) is open and the UV relay
    (relay_two) is closed. *)
Lemma variant_at_temperature_outputs (i : Part000.tick) (s : Part000.state) :
  Part000.cycle_run (Part000.armed i s) = true ->
  Part000.finish_time (Part000.armed i s)
  > millis (Part000.t_expire (Part000.clk i)) ->
  Part000.finish_time (Part000.armed i s)
  > millis (Part000.t_hold (Part000.clk i)) ->
  Part000.box_temp (Part000.armed i s) >= Part000.target_temp ->
  Part000.heating (Part000.loop i s) = false /\
  Part000.out (Part000.loop i s)
  = mkPins HIGH LOW HIGH LOW (LED03 (Part000.out s)) /\
  ~ Part000.closed (relay_one (Part000.out (Part000.loop i s))) /\
  Part000.closed (relay_two (Part000.out (Part000.loop i s))).
Proof.
  intros Hr He Hh Ht. unfold Part000.loop, Part000.decide.
  rewrite Hr. cbn [negb andb].
  replace (_ <=? millis (Part000.t_expire (Part000.clk i))) with false
    by (symmetry; apply Z.leb_gt; lia).
  replace (Part000.box_temp (Part000.armed i s) <? Part000.target_temp)
    with false by (symmetry; apply Z.ltb_ge; lia).
  rewrite andb_false_r.
  replace (_ >? millis (Part000.t_hold (Part000.clk i))) with true
    by (symmetry; apply Z.gtb_lt; lia).
  replace (Part000.box_temp (Part000.armed i s) >=? Part000.target_temp)
    with true by (symmetry; apply Z.geb_le; lia).
  cbn. repeat split; try reflexivity. unfold Part000.closed. discriminate.
Qed.

(** C2.  When the decision chain is entered with the cycle running and
    [finish_time] at or below the clock, the pass clears [cycle_run] and
    [heating] and writes the idle outputs: both relays released, both red
    LEDs off, the amber LED on. *)
Theorem expiry_ends_cycle (i : tick) (s : state) :
  cycle_run (armed i s) = true ->
  finish_time (armed i s) <= millis (t_expire (clk i)) ->
  cycle_run (loop i s) = false /\
  heating (loop i s) = false /\
  out (loop i s) = mkPins LOW LOW LOW LOW HIGH.
Proof.
  intros Hr He. unfold loop. rewrite (decide_expired _ _ Hr He).
  cbn. auto.
Qed.

Lemma expiry_ends_cycle_witness :
  cycle_run (loop (Samples.pass 7200400 HIGH 65) Samples.under_way) = false.
Proof.
  apply (expiry_ends_cycle (Samples.pass 7200400 HIGH 65) Samples.under_way);
    vm_compute; congruence.
Defined.

(** C3.  When the decision chain is entered with the cycle running,
    [finish_time] above the clock and the plate below the target, the pass
    sets [heating], leaves [cycle_run] set, energizes both relays, lights
    both red LEDs and puts the amber LED out. *)
Theorem heating_outputs (i : tick) (s : state) :
  cycle_run (armed i s) = true ->
  finish_time (armed i s) > millis (t_expire (clk i)) ->
  finish_time (armed i s) > millis (t_heat (clk i)) ->
  plate_temp (armed i s) < target_temp ->
  heating (loop i s) = true /\
  cycle_run (loop i s) = true /\
  out (loop i s) = mkPins HIGH HIGH HIGH HIGH LOW /\
  energized (relay_one (out (loop i s))) /\
  energized (relay_two (out (loop i s))).
Proof.
  intros Hr He Hh Ht. unfold loop.
  rewrite (decide_heating _ _ Hr He Hh Ht). cbn.
  repeat split; assumption.
Qed.

Lemma heating_outputs_witness :
  heating (loop (Samples.pass 2000 HIGH 40) Samples.under_way) = true.
Proof.
  apply (heating_outputs (Samples.pass 2000 HIGH 40) Samples.under_way);
    vm_compute; congruence.
Defined.

(** Whatever the state a pass starts from, it ends with [heating] set only
    if [cycle_run] is set. *)
Lemma loop_heating_running (i : tick) (s : state) :
  heating (loop i s) = true -> cycle_run (loop i s) = true.
Proof.
  unfold loop, decide.
  destruct (cycle_run (armed i s)) eqn:Hr; cbn [negb andb].
  - destruct (finish_time (armed i s) <=? millis (t_expire (clk i)));
      [cbn; discriminate|].
    destruct (_ && _); [cbn; auto|].
    destruct (_ && _); cbn; discriminate.
  - cbn. discriminate.
Qed.

(** C6.  In every state the sketch reaches from [setup()], [heating] is set
    only if [cycle_run] is set. *)
Theorem heating_implies_running (tr : list tick) :
  heating (run tr setup) = true -> cycle_run (run tr setup) = true.
Proof.
  induction tr as [|i tr _] using rev_ind.
  - cbn. discriminate.
  - rewrite run_snoc. apply loop_heating_running.
Qed.

Lemma heating_implies_running_witness :
  cycle_run (run (Samples.start_up 20) setup) = true.
Proof.
  apply (heating_implies_running (Samples.start_up 20)).
  vm_compute. reflexivity.
Defined.

End Cycle.

(** ** Button and timestamps of UVCuring.ino *)

Module Button.
Import UVCuring.

(** Case analysis on every test a pass makes. *)
Ltac tests :=
  repeat match goal with
         | |- context [if ?b then _ else _] => destruct b eqn:?
         | H : context [if ?b then _ else _] |- _ => destruct b eqn:?
         end;
  cbn in *; try congruence; try discriminate.

Lemma decide_button (i : tick) (s : state) :
  buttonState (decide i s) = buttonState s /\
  lastDebounceTime (decide i s) = lastDebounceTime s.
Proof. unfold decide. tests; auto. Qed.

Lemma stamp_button (i : tick) (s : state) :
  buttonState (stamp i s) = buttonState s /\
  lastDebounceTime (stamp i s) = lastDebounceTime s.
Proof. unfold stamp. tests; auto. Qed.

Lemma loop_button (i : tick) (s : state) :
  buttonState (loop i s) = buttonState (debounce i (sense i s)) /\
  lastDebounceTime (loop i s) = lastDebounceTime (debounce i (sense i s)).
Proof.
  unfold loop, armed. cbn.
  destruct (decide_button i (stamp i (debounce i (sense i s)))) as [-> ->].
  apply stamp_button.
Qed.

Lemma loop_lastButtonState (i : tick) (s : state) :
  lastButtonState (loop i s) = reading i.
Proof. reflexivity. Qed.

Lemma loop_lastDebounceTime (i : tick) (s : state) :
  lastDebounceTime (loop i s) = settle_time i s.
Proof.
  destruct (loop_button i s) as [_ ->].
  unfold debounce, sense, settle_time. cbn.
  destruct (level_eqb (reading i) (lastButtonState s)); cbn;
    destruct (_ >? debounceDelay); cbn; try reflexivity;
    destruct (level_eqb (reading i) (buttonState s)); cbn; try reflexivity;
    destruct (reading i); reflexivity.
Qed.

Lemma loop_buttonState (i : tick) (s : state) :
  buttonState (loop i s)
  = if settled i s && negb (level_eqb (reading i) (buttonState s))
    then reading i else buttonState s.
Proof.
  destruct (loop_button i s) as [-> _].
  unfold debounce, sense, settled, settle_time. cbn.
  destruct (level_eqb (reading i) (lastButtonState s)); cbn;
    destruct (_ >? debounceDelay); cbn; try reflexivity;
    destruct (level_eqb (reading i) (buttonState s)); cbn; try reflexivity;
    destruct (reading i); reflexivity.
Qed.

Lemma committed_iff (i : tick) (s : state) :
  committed i s = settled i s && negb (level_eqb (reading i) (buttonState s)).
Proof.
  unfold committed. rewrite loop_buttonState.
  destruct (settled i s); cbn.
  - destruct (reading i), (buttonState s); reflexivity.
  - now rewrite level_eqb_refl.
Qed.

Lemma committed_buttonState (i : tick) (s : state) :
  committed i s = true -> buttonState (loop i s) = reading i.
Proof.
  rewrite committed_iff, loop_buttonState. intros ->. reflexivity.
Qed.

Lemma not_committed_buttonState (i : tick) (s : state) :
  committed i s = false -> buttonState (loop i s) = buttonState s.
Proof.
  rewrite committed_iff, loop_buttonState. intros ->. reflexivity.
Qed.

(** The debounce block flips [cycle_run] in exactly the passes in which the
    debounced state changes to pressed. *)
Lemma toggled_press_edge (i : tick) (s : state) :
  toggled i s = press_edge i s.
Proof.
  unfold press_edge. rewrite committed_iff, loop_buttonState.
  unfold toggled, debounce, sense, settled, settle_time. cbn.
  destruct (level_eqb (reading i) (lastButtonState s)); cbn;
    destruct (_ >? debounceDelay); cbn;
    destruct (reading i), (buttonState s); cbn;
    destruct (cycle_run s); reflexivity.
Qed.

Lemma armed_press (i : tick) (s : state) :
  press_edge i s = true ->
  cycle_run (armed i s) = negb (cycle_run s) /\
  finish_time (debounce i (sense i s))
  = wrap32 (millis (t_press (clk i)) + target_time).
Proof.
  unfold press_edge. rewrite committed_iff, loop_buttonState.
  unfold armed, stamp, debounce, sense, settled, settle_time. cbn.
  destruct (level_eqb (reading i) (lastButtonState s)); cbn;
    destruct (_ >? debounceDelay); cbn; try discriminate;
    destruct (reading i), (buttonState s); cbn; try discriminate;
    destruct (cycle_run s) eqn:E; cbn; rewrite ?E; auto.
Qed.

Lemma armed_no_press (i : tick) (s : state) :
  press_edge i s = false ->
  cycle_run (armed i s) = cycle_run s /\
  finish_time (debounce i (sense i s)) = finish_time s.
Proof.
  unfold press_edge. rewrite committed_iff, loop_buttonState.
  unfold armed, stamp, debounce, sense, settled, settle_time. cbn.
  destruct (level_eqb (reading i) (lastButtonState s)); cbn;
    destruct (_ >? debounceDelay); cbn;
    destruct (reading i), (buttonState s); cbn; try discriminate;
    destruct (cycle_run s) eqn:E; cbn; rewrite ?E; auto.
Qed.

(** The decision chain leaves the timestamps alone. *)
Lemma decide_timestamps (i : tick) (s : state) :
  start_time (decide i s) = start_time s /\
  finish_time (decide i s) = finish_time s.
Proof. unfold decide. tests; auto. Qed.

Lemma loop_timestamps (i : tick) (s : state) :
  start_time (loop i s) = start_time (armed i s) /\
  finish_time (loop i s) = finish_time (armed i s).
Proof. unfold loop. cbn. apply decide_timestamps. Qed.

Lemma armed_timestamps (i : tick) (s : state) :
  if cycle_run (armed i s)
  then start_time (armed i s) = millis (t_start (clk i)) /\
       finish_time (armed i s) = finish_time (debounce i (sense i s))
  else start_time (armed i s) = 0 /\ finish_time (armed i s) = 0.
Proof.
  unfold armed, stamp.
  destruct (cycle_run (debounce i (sense i s))) eqn:E; cbn; rewrite ?E; auto.
Qed.

Lemma loop_stopped (i : tick) (s : state) :
  cycle_run (armed i s) = false ->
  cycle_run (loop i s) = false /\
  start_time (loop i s) = 0 /\ finish_time (loop i s) = 0.
Proof.
  intros H. destruct (loop_timestamps i s) as [-> ->].
  pose proof (armed_timestamps i s) as T. rewrite H in T.
  split; [|exact T].
  unfold loop. rewrite (Cycle.decide_idle _ _ H). cbn. exact H.
Qed.

(** The sample state [under_way] is a state the sketch reaches. *)
Lemma under_way_reached :
  run (Samples.start_up 20 ++ Samples.let_go 20) setup = Samples.under_way.
Proof. vm_compute. reflexivity. Qed.

(** The expiry of a cycle, read on the state the pass starts from: whether
    or not the button ends the cycle in the same pass, the pass ends idle. *)
Lemma expiry_from_start (i : tick) (s : state) :
  cycle_run s = true ->
  finish_time s <= millis (t_expire (clk i)) ->
  cycle_run (loop i s) = false /\
  heating (loop i s) = false /\
  out (loop i s) = mkPins LOW LOW LOW LOW HIGH.
Proof.
  intros Hr He. unfold loop.
  destruct (press_edge i s) eqn:Hp.
  - destruct (armed_press i s Hp) as [Hc _]. rewrite Hr in Hc. cbn in Hc.
    rewrite (Cycle.decide_idle _ _ Hc). cbn. auto.
  - destruct (armed_no_press i s Hp) as [Hc Hf]. rewrite Hr in Hc.
    pose proof (armed_timestamps i s) as T. rewrite Hc in T.
    destruct T as [_ Tf]. rewrite Hf in Tf. rewrite <- Tf in He.
    rewrite (Cycle.decide_expired _ _ Hc He). cbn. auto.
Qed.

(** The pass in which a cycle runs out a little late reports the wrapped
    difference of the two timestamps as the time remaining. *)
Lemma timeout_report :
  minutes (loop (Samples.pass 7200500 HIGH 20) Samples.under_way) = 71582.
Proof. vm_compute. reflexivity. Qed.

(** C4 refuted where the cycle ends by timeout.  The cycle started at
    uptime 400 runs out in the pass at uptime 400 + target_time: the pass
    clears [cycle_run] and leaves [start_time] and [finish_time] at that
    uptime, not at zero. *)
Lemma timeout_keeps_timestamps :
  let s := run (Samples.start_up 20 ++ Samples.let_go 20) setup in
  let s' := loop (Samples.pass 7200400 HIGH 20) s in
  cycle_run s = true /\ cycle_run s' = false /\
  start_time s' = 7200400 /\ finish_time s' = 7200400 /\
  ~ (start_time s' = 0 /\ finish_time s' = 0).
Proof.
  vm_compute. repeat split; try reflexivity. intros [H _]. discriminate H.
Qed.

(** C4 as amended.  A press edge that starts a cycle sets [finish_time] to
    the clock plus [target_time] in [unsigned long] arithmetic, which is
    their sum whenever the sum is below 2^32, and [start_time] to the clock.
    A press edge that ends a cycle leaves both timestamps zero at the end of
    the pass.  A timeout ends the cycle with [start_time] at the clock and
    [finish_time] as it was; both are zero at the end of the next pass,
    unless that pass has a press edge. *)
Theorem cycle_timestamps (i : tick) (s : state) :
  (press_edge i s = true -> cycle_run s = false ->
   cycle_run (armed i s) = true /\
   finish_time (loop i s) = wrap32 (millis (t_press (clk i)) + target_time) /\
   (millis (t_press (clk i)) + target_time < 2 ^ 32 ->
    finish_time (loop i s) = millis (t_press (clk i)) + target_time) /\
   start_time (loop i s) = millis (t_start (clk i))) /\
  (press_edge i s = true -> cycle_run s = true ->
   cycle_run (loop i s) = false /\
   start_time (loop i s) = 0 /\ finish_time (loop i s) = 0) /\
  (cycle_run (armed i s) = true ->
   finish_time (armed i s) <= millis (t_expire (clk i)) ->
   cycle_run (loop i s) = false /\
   start_time (loop i s) = millis (t_start (clk i)) /\
   finish_time (loop i s) = finish_time (armed i s) /\
   forall j : tick,
     press_edge j (loop i s) = false ->
     cycle_run (loop j (loop i s)) = false /\
     start_time (loop j (loop i s)) = 0 /\
     finish_time (loop j (loop i s)) = 0).
Proof.
  destruct (loop_timestamps i s) as [Es Ef].
  pose proof (armed_timestamps i s) as T.
  split; [|split].
  - intros Hp Hr. destruct (armed_press i s Hp) as [Hc Hf].
    rewrite Hr in Hc. cbn in Hc. rewrite Hc in T. destruct T as [Ts Tf].
    rewrite Es, Ef, Ts, Tf, Hf. repeat split; auto.
    intros Hlt. unfold wrap32 at 1. apply Z.mod_small.
    pose proof (wrap32_range (t_press (clk i))). unfold millis, target_time in *.
    lia.
  - intros Hp Hr. destruct (armed_press i s Hp) as [Hc _].
    rewrite Hr in Hc. cbn in Hc. now apply loop_stopped.
  - intros Hr He.
    assert (Hc : cycle_run (loop i s) = false).
    { unfold loop. now rewrite (Cycle.decide_expired _ _ Hr He). }
    rewrite Hr in T. destruct T as [Ts _]. rewrite Es, Ef, Ts.
    do 3 (split; [auto|]).
    intros j Hj. apply loop_stopped.
    destruct (armed_no_press j (loop i s) Hj) as [-> _]. exact Hc.
Qed.

Lemma cycle_timestamps_witness :
  finish_time (loop (Samples.pass 400 LOW 20)
                    (run (Samples.pressing 20) setup)) = 400 + target_time /\
  finish_time (loop (Samples.pass 800 LOW 20)
                    (loop (Samples.pass 700 LOW 20) Samples.under_way)) = 0 /\
  finish_time (loop (Samples.pass 7200400 HIGH 20) Samples.under_way)
  = 400 + target_time.
Proof.
  split; [|split].
  - destruct (cycle_timestamps (Samples.pass 400 LOW 20)
                (run (Samples.pressing 20) setup)) as [H _].
    destruct H as [_ [H _]]; [vm_compute; reflexivity ..|].
    rewrite H. vm_compute. reflexivity.
  - destruct (cycle_timestamps (Samples.pass 800 LOW 20)
                (loop (Samples.pass 700 LOW 20) Samples.under_way))
      as [_ [H _]].
    destruct H as [_ [_ H]]; [vm_compute; reflexivity ..|].
    exact H.
  - destruct (cycle_timestamps (Samples.pass 7200400 HIGH 20)
                Samples.under_way) as [_ [_ H]].
    destruct H as [_ [_ [H _]]]; [vm_compute; congruence ..|].
    rewrite H. vm_compute. reflexivity.
Defined.

End Button.

(** ** The debounce law of UVCuring.ino *)

Module Debounce.
Import UVCuring Button.

(** *** Elapsed time across the rollover *)

Lemma elapsed_le (a b : Z) :
  a <= b -> wrap32 (millis b - millis a) <= b - a.
Proof.
  intros H. unfold millis, wrap32. rewrite <- Zminus_mod.
  apply Z.mod_le; lia.
Qed.

(** *** Chronology *)

Lemma in_order_span (c : clock) :
  in_order c -> t_edge c <= t_settle c /\ t_settle c <= t_hold c.
Proof. unfold in_order. lia. Qed.

Lemma chronological_reach (a : list tick) :
  forall (from : Z) (i : tick) (b : list tick),
    chronological from (a ++ i :: b) ->
    from <= t_edge (clk i) /\ in_order (clk i).
Proof.
  induction a as [|k a IH]; intros from i b; cbn.
  - tauto.
  - intros (Hk & Ho & Hc). destruct (IH _ _ _ Hc) as [Hi Hio].
    apply in_order_span in Ho. split; [lia | assumption].
Qed.

Lemma chronological_suffix (a : list tick) :
  forall (from : Z) (b : list tick),
    chronological from (a ++ b) -> exists from', chronological from' b.
Proof.
  induction a as [|k a IH]; intros from b; cbn.
  - intros H. now exists from.
  - intros (_ & _ & Hc). exact (IH _ _ Hc).
Qed.

Lemma chronological_prefix (a : list tick) :
  forall (from : Z) (b : list tick),
    chronological from (a ++ b) -> chronological from a.
Proof.
  induction a as [|k a IH]; intros from b; cbn.
  - trivial.
  - intros (Hk & Ho & Hc). eauto.
Qed.

(** In a run that ends with pass [i], the timestamp of every pass, [i]
    included, comes before the settle test of [i]. *)
Lemma edge_before_settle (from : Z) (before : list tick) (j : tick)
      (after : list tick) (tr : list tick) (i : tick) :
  chronological from (tr ++ [i]) ->
  tr ++ [i] = before ++ j :: after ->
  t_edge (clk j) <= t_settle (clk i).
Proof.
  intros Hc E. rewrite E in Hc.
  destruct (chronological_suffix _ _ _ Hc) as [f Hj].
  destruct after as [|k after _] using rev_ind.
  - apply app_inj_tail in E. destruct E as [_ <-].
    cbn in Hj. destruct Hj as (_ & Ho & _). now apply in_order_span in Ho.
  - rewrite app_comm_cons, app_assoc in E.
    apply app_inj_tail in E. destruct E as [_ <-].
    cbn in Hj. destruct Hj as (_ & Ho & Hk).
    apply chronological_reach in Hk. destruct Hk as [Hk Hio].
    apply in_order_span in Ho, Hio. lia.
Qed.

(** *** The reading behind [lastDebounceTime] *)

Lemma tracked_loop (tr : list tick) (i : tick) (s : state) :
  tracked tr s -> tracked (tr ++ [i]) (loop i s).
Proof.
  intros T. unfold tracked.
  rewrite loop_lastButtonState, loop_lastDebounceTime, loop_buttonState.
  unfold settle_time.
  destruct (level_eqb_spec (reading i) (lastButtonState s)) as [E|N].
  - destruct T as [T|(before & j & after & -> & Hf & Hl)].
    + left. rewrite T, <- E, level_eqb_refl, andb_false_r. reflexivity.
    + right. exists before, j, (after ++ [i]). split; [|split].
      * now rewrite <- app_assoc.
      * rewrite app_comm_cons. apply Forall_app. split.
        -- now rewrite E.
        -- constructor; [reflexivity | constructor].
      * assumption.
  - right. exists tr, i, []. repeat split. constructor; [reflexivity|constructor].
Qed.

Lemma tracked_run (tr : list tick) : tracked tr (run tr setup).
Proof.
  induction tr as [|i tr IH] using rev_ind.
  - left. reflexivity.
  - rewrite Cycle.run_snoc. now apply tracked_loop.
Qed.

(** The debounced state changes only after the reading has been the same
    for more than [debounceDelay]. *)
Lemma commit_after_stable (tr : list tick) (i : tick) :
  chronological 0 (tr ++ [i]) ->
  committed i (run tr setup) = true ->
  stable_for debounceDelay tr i /\
  buttonState (loop i (run tr setup)) = reading i.
Proof.
  intros Hc Hm. split; [|now apply committed_buttonState].
  pose proof (tracked_run tr) as T.
  rewrite committed_iff in Hm. apply andb_prop in Hm. destruct Hm as [Hs Hn].
  unfold settled, settle_time in Hs. apply Z.gtb_lt in Hs.
  destruct (level_eqb_spec (reading i) (lastButtonState (run tr setup)))
    as [E|N].
  - destruct T as [T|(before & j & after & Etr & Hf & Hl)].
    + rewrite T, <- E, level_eqb_refl in Hn. discriminate.
    + assert (Esplit : tr ++ [i] = before ++ j :: after ++ [i])
        by (rewrite Etr, <- app_assoc; reflexivity).
      exists before, j, (after ++ [i]). split; [exact Esplit|]. split.
      * rewrite app_comm_cons. apply Forall_app. split.
        -- now rewrite E.
        -- constructor; [reflexivity | constructor].
      * rewrite Hl in Hs.
        pose proof (edge_before_settle _ _ _ _ _ _ Hc Esplit) as Hle.
        pose proof (elapsed_le _ _ Hle). lia.
  - exists tr, i, []. repeat split.
    + constructor; [reflexivity | constructor].
    + assert (Hle : t_edge (clk i) <= t_settle (clk i)).
      { apply (edge_before_settle 0 tr i [] tr i Hc eq_refl). }
      pose proof (elapsed_le _ _ Hle). lia.
Qed.

(** *** Counting events *)

Lemma count_app (ev : tick -> state -> bool) (a : list tick) :
  forall (b : list tick) (s : state),
    count ev (a ++ b) s = (count ev a s + count ev b (run a s))%nat.
Proof.
  induction a as [|i a IH]; intros b s; cbn [count app].
  - reflexivity.
  - rewrite IH. change (run (i :: a) s) with (run a (loop i s)). lia.
Qed.

Lemma count_toggled (tr : list tick) :
  forall s : state, count toggled tr s = count press_edge tr s.
Proof.
  induction tr as [|i tr IH]; intros s; cbn.
  - reflexivity.
  - now rewrite toggled_press_edge, IH.
Qed.

(** While the reading rests at one level the debounced state changes at
    most once, and not at all once it agrees with the reading. *)
Lemma count_committed_at_rest (r : level) (tr : list tick) :
  forall s : state,
    Forall (fun k => reading k = r) tr ->
    (count committed tr s
     <= if level_eqb (buttonState s) r then 0 else 1)%nat.
Proof.
  induction tr as [|i tr IH]; intros s Hf; cbn.
  - lia.
  - inversion Hf as [|? ? Hi Htr]; subst. specialize (IH (loop i s) Htr).
    destruct (committed i s) eqn:Hm.
    + rewrite (committed_buttonState _ _ Hm), level_eqb_refl in IH.
      rewrite committed_iff in Hm. apply andb_prop in Hm.
      destruct Hm as [_ Hn].
      destruct (level_eqb_spec (buttonState s) (reading i)) as [E|N].
      * rewrite E, level_eqb_refl in Hn. discriminate.
      * lia.
    + now rewrite (not_committed_buttonState _ _ Hm) in IH.
Qed.

(** A press edge followed by passes in which the button is held flips
    [cycle_run] once. *)
Lemma held_press_toggles_once (i : tick) (held : list tick) (s : state) :
  press_edge i s = true ->
  Forall (fun k => reading k = reading i) held ->
  count toggled (i :: held) s = 1%nat.
Proof.
  intros Hp Hh. cbn. rewrite toggled_press_edge, Hp.
  unfold press_edge in Hp. apply andb_prop in Hp. destruct Hp as [Hm _].
  pose proof (count_committed_at_rest _ _ (loop i s) Hh) as Hc.
  rewrite (committed_buttonState _ _ Hm), level_eqb_refl in Hc.
  rewrite count_toggled.
  assert (count press_edge held (loop i s) = 0%nat); [|lia].
  clear - Hc. revert Hc. generalize (loop i s).
  induction held as [|k held IH]; intros s0; cbn; [reflexivity|].
  unfold press_edge at 1. destruct (committed k s0); cbn; [lia|].
  intros H. now apply IH.
Qed.

(** *** The window after a raw edge *)

(** A pass whose settle test comes no more than [debounceDelay] after the
    timestamp it tests against leaves the debounced state alone. *)
Lemma pass_quiet (i : tick) (s : state) (T : Z) :
  settle_time i s = millis T ->
  T <= t_settle (clk i) ->
  t_settle (clk i) - T <= debounceDelay ->
  committed i s = false.
Proof.
  intros Hs Hle Hd. rewrite committed_iff. unfold settled. rewrite Hs.
  pose proof (elapsed_le _ _ Hle).
  replace (_ >? debounceDelay) with false; [reflexivity|].
  symmetry. rewrite Z.gtb_ltb. apply Z.ltb_ge. lia.
Qed.

Lemma window_quiet (t0 tend : Z) (tr : list tick) :
  forall (from : Z) (s : state),
    chronological from tr ->
    (exists T, lastDebounceTime s = millis T /\ t0 <= T <= from) ->
    Forall (fun k => t_settle (clk k) <= tend) tr ->
    tend - t0 <= debounceDelay ->
    count committed tr s = 0%nat.
Proof.
  induction tr as [|i tr IH]; intros from s Hc (T & Hl & Ht) Hf Hd; cbn.
  - reflexivity.
  - cbn in Hc. destruct Hc as (Hi & Ho & Hc).
    inversion Hf as [|? ? Hend Htr]; subst.
    pose proof (in_order_span _ Ho) as Hspan.
    assert (Hst : exists T', settle_time i s = millis T' /\
                             t0 <= T' <= t_edge (clk i)).
    { unfold settle_time. destruct (level_eqb _ _).
      - exists T. split; [assumption | lia].
      - exists (t_edge (clk i)). split; [reflexivity | lia]. }
    destruct Hst as (T' & Hs & Ht').
    rewrite (pass_quiet i s T' Hs) by lia.
    apply (IH (t_hold (clk i)) (loop i s) Hc); try assumption.
    exists T'. rewrite loop_lastDebounceTime. split; [assumption | lia].
Qed.

Lemma settle_before_last (tr : list tick) :
  forall (from : Z) (j : tick),
    chronological from (tr ++ [j]) ->
    Forall (fun k => t_settle (clk k) <= t_settle (clk j)) (tr ++ [j]).
Proof.
  induction tr as [|i tr IH]; intros from j; cbn.
  - intros _. constructor; [lia | constructor].
  - intros (_ & Ho & Hc). constructor.
    + destruct (chronological_reach _ _ _ _ Hc) as [Hj Hjo].
      apply in_order_span in Ho, Hjo. lia.
    + exact (IH _ _ Hc).
Qed.

(** Two raw edges less than [debounceDelay] apart.  No pass from the first
    edge to the second changes the debounced state, and while the reading
    then rests, at most one pass does. *)
Lemma close_edges_one_commit (from : Z) (s : state) (j1 : tick)
      (mid : list tick) (j2 : tick) (rest : list tick) :
  chronological from (j1 :: mid ++ j2 :: rest) ->
  raw_edge j1 s = true ->
  raw_edge j2 (run (j1 :: mid) s) = true ->
  t_settle (clk j2) - t_edge (clk j1) < debounceDelay ->
  Forall (fun k => reading k = reading j2) rest ->
  count committed (j1 :: mid ++ [j2]) s = 0%nat /\
  (count committed (j1 :: mid ++ j2 :: rest) s <= 1)%nat.
Proof.
  intros Hc He1 _ Hd Hrest.
  assert (Esplit : j1 :: mid ++ j2 :: rest = (j1 :: mid ++ [j2]) ++ rest).
  { cbn. now rewrite <- app_assoc. }
  rewrite Esplit in Hc. apply chronological_prefix in Hc.
  assert (Hw : count committed (j1 :: mid ++ [j2]) s = 0%nat).
  { pose proof (settle_before_last (j1 :: mid) from j2 Hc) as Hf.
    cbn [app] in Hf. inversion Hf as [|? ? H1 Hf']; subst.
    cbn in Hc. destruct Hc as (_ & Ho & Hc).
    pose proof (in_order_span _ Ho) as Hspan.
    assert (Hs : settle_time j1 s = millis (t_edge (clk j1))).
    { unfold settle_time. unfold raw_edge in He1.
      destruct (level_eqb _ _); [discriminate | reflexivity]. }
    cbn [count]. rewrite (pass_quiet j1 s _ Hs) by lia.
    apply (window_quiet (t_edge (clk j1)) (t_settle (clk j2)) _
             (t_hold (clk j1)) (loop j1 s) Hc); try assumption; try lia.
    exists (t_edge (clk j1)). rewrite loop_lastDebounceTime.
    split; [assumption | lia]. }
  split; [exact Hw|].
  rewrite Esplit, count_app, Hw.
  pose proof (count_committed_at_rest _ _ (run (j1 :: mid ++ [j2]) s) Hrest)
    as Hr.
  destruct (level_eqb _ _) in Hr; lia.
Qed.

(** C5.  In every chronological run from [setup()]: the debounced state
    changes only in a pass up to whose settle test the reading has been the
    same for more than [debounceDelay], and it changes to that reading; the
    debounce block flips [cycle_run] in exactly the passes with a press
    edge, once for a press that is then held; and two raw edges less than
    [debounceDelay] apart, after which the reading rests, give no change of
    the debounced state between them and at most one in all. *)
Theorem debounce_law :
  (forall (tr : list tick) (i : tick),
      chronological 0 (tr ++ [i]) ->
      committed i (run tr setup) = true ->
      stable_for debounceDelay tr i /\
      buttonState (loop i (run tr setup)) = reading i) /\
  (forall (tr : list tick) (s : state),
      count toggled tr s = count press_edge tr s) /\
  (forall (i : tick) (held : list tick) (s : state),
      press_edge i s = true ->
      Forall (fun k => reading k = reading i) held ->
      count toggled (i :: held) s = 1%nat) /\
  (forall (from : Z) (s : state) (j1 : tick) (mid : list tick) (j2 : tick)
          (rest : list tick),
      chronological from (j1 :: mid ++ j2 :: rest) ->
      raw_edge j1 s = true ->
      raw_edge j2 (run (j1 :: mid) s) = true ->
      t_settle (clk j2) - t_edge (clk j1) < debounceDelay ->
      Forall (fun k => reading k = reading j2) rest ->
      count committed (j1 :: mid ++ [j2]) s = 0%nat /\
      (count committed (j1 :: mid ++ j2 :: rest) s <= 1)%nat).
Proof.
  split; [exact commit_after_stable|].
  split; [intros tr s; apply count_toggled|].
  split; [exact held_press_toggles_once|].
  exact close_edges_one_commit.
Qed.

Lemma debounce_law_witness :
  stable_for debounceDelay (Samples.pressing 20) (Samples.pass 400 LOW 20) /\
  count toggled [Samples.pass 400 LOW 20; Samples.pass 500 LOW 20]
        (run (Samples.pressing 20) setup) = 1%nat /\
  (count committed Samples.bounce Samples.under_way <= 1)%nat.
Proof.
  destruct debounce_law as (H1 & _ & H3 & H4).
  split; [|split].
  - apply (H1 (Samples.pressing 20) (Samples.pass 400 LOW 20)).
    + cbn. unfold in_order. cbn. lia.
    + vm_compute. reflexivity.
  - apply (H3 (Samples.pass 400 LOW 20) [Samples.pass 500 LOW 20]).
    + vm_compute. reflexivity.
    + repeat constructor.
  - destruct (H4 600 Samples.under_way (Samples.pass 1000 LOW 20) []
                (Samples.pass 1050 HIGH 20)
                [Samples.pass 1150 HIGH 20; Samples.pass 1250 HIGH 20])
      as [_ H].
    + cbn. unfold in_order. cbn. lia.
    + vm_compute. reflexivity.
    + vm_compute. reflexivity.
    + cbn. unfold debounceDelay. lia.
    + repeat constructor.
    + exact H.
Defined.

End Debounce.

(** ** check_Temperature of UVCuring.ino in exact arithmetic *)

Module Thermistor.
Import UVCuring.
Local Open Scope R_scope.

(** *** Logarithm bounds *)

Lemma ln_2_lt_1 : ln 2 < 1.
Proof.
  rewrite <- (ln_exp 1). apply ln_increasing; [lra|].
  pose proof (exp_ineq1 1). lra.
Qed.

Lemma ln_8192 : ln 8192 < 13.
Proof.
  replace 8192 with (2 ^ 13) by (cbn; lra).
  rewrite ln_pow by lra. pose proof ln_2_lt_1.
  replace (INR 13) with 13 by (cbn; lra). lra.
Qed.

Lemma ln_bounded (x : R) : / 8192 < x < 8192 -> -13 < ln x < 13.
Proof.
  intros [Hlo Hhi]. pose proof ln_8192 as H.
  assert (0 < x) by (apply Rlt_trans with (/ 8192); lra).
  split.
  - pose proof (ln_Rinv 8192).
    pose proof (ln_increasing (/ 8192) x). lra.
  - pose proof (ln_increasing x 8192). lra.
Qed.

(** For a positive [x] other than 1, [1 - 1/x < ln x < x - 1]. *)
Lemma ln_between (x : R) : 0 < x -> x <> 1 -> 1 - / x < ln x < x - 1.
Proof.
  intros Hx Hn.
  assert (Hup : forall y, 0 < y -> y <> 1 -> ln y < y - 1).
  { intros y Hy Hy1. pose proof (exp_ineq1 (ln y) (ln_neq_0 y Hy1 Hy)) as H.
    rewrite exp_ln in H by assumption. lra. }
  split; [|now apply Hup].
  assert (Hi : 0 < / x) by now apply Rinv_0_lt_compat.
  assert (Hi1 : / x <> 1).
  { intros E. apply Hn. rewrite <- (Rinv_inv x), E. lra. }
  pose proof (Hup (/ x) Hi Hi1) as H. rewrite ln_Rinv in H by assumption. lra.
Qed.

Lemma inv_between (a b x : R) : 0 < a -> a < x -> x < b -> / b < / x < / a.
Proof.
  intros Ha Hax Hxb. split; apply Rinv_lt_contravar; try assumption; nra.
Qed.

Lemma div_above (a b c : R) : 0 < b -> c * b < a -> c < a / b.
Proof.
  intros Hb H. apply Rmult_lt_reg_r with b; [assumption|].
  unfold Rdiv. rewrite Rmult_assoc, Rinv_l by lra. lra.
Qed.

Lemma div_below (a b c : R) : 0 < b -> a < c * b -> a / b < c.
Proof.
  intros Hb H. apply Rmult_lt_reg_r with b; [assumption|].
  unfold Rdiv. rewrite Rmult_assoc, Rinv_l by lra. lra.
Qed.

(** *** Truncation *)

Lemma Rtrunc_nonneg (x : R) (z : Z) :
  IZR z <= x < IZR z + 1 -> (0 <= z)%Z -> Rtrunc x = z.
Proof.
  intros [Hlo Hhi] Hz. unfold Rtrunc.
  apply IZR_le in Hz.
  destruct (Rle_dec 0 x) as [_|N]; [|lra].
  symmetry. apply Int_part_spec. lra.
Qed.

Lemma Rtrunc_between (x : R) (a b : Z) :
  (a <= 0 <= b)%Z -> IZR a <= x <= IZR b -> (a <= Rtrunc x <= b)%Z.
Proof.
  intros [Ha Hb] [Hlo Hhi]. unfold Rtrunc.
  destruct (Rle_dec 0 x) as [P|N].
  - destruct (base_Int_part x) as [H1 H2]. split.
    + assert (-1 < IZR (Int_part x)) by lra.
      apply lt_IZR in H. lia.
    + apply le_IZR. lra.
  - destruct (base_Int_part (- x)) as [H1 H2]. split.
    + assert (IZR (Int_part (- x)) <= IZR (- a)) by (rewrite opp_IZR; lra).
      apply le_IZR in H. lia.
    + assert (-1 < IZR (Int_part (- x))) by lra.
      apply lt_IZR in H. lia.
Qed.

(** *** The stages of the conversion *)

Lemma fold_samples (samples : list Z) :
  forall z : Z,
    fold_left (fun a x => fadd a (of_int x)) samples (IZR z)
    = IZR (fold_left Z.add samples z).
Proof.
  induction samples as [|x samples IH]; intros z; cbn.
  - reflexivity.
  - rewrite <- plus_IZR. apply IH.
Qed.

Lemma average_defined (samples : list Z) :
  adc_average samples = Some (IZR (total samples) / 5).
Proof.
  unfold adc_average, total. cbn [of_int Ideal]. rewrite fold_samples.
  cbn. destruct (Req_EM_T 5 0) as [E|_]; [lra | reflexivity].
Qed.

Lemma resistance_defined (average : R) :
  0 < average < 1023 ->
  exists res,
    resistance average = Some res /\
    res = 100000 / (1023 / average - 1) /\
    res / 100000 = average / (1023 - average).
Proof.
  intros [Hlo Hhi]. unfold resistance. cbn.
  destruct (Req_EM_T average 0) as [E|_]; [lra|]. cbn.
  assert (Hq : 0 < 1023 / average - 1).
  { apply Rlt_0_minus. apply div_above; lra. }
  destruct (Req_EM_T (1023 / average - 1) 0) as [E|_]; [lra|].
  eexists. split; [reflexivity|]. split; [reflexivity|].
  unfold RESISTANCE. field. lra.
Qed.

Lemma steinhart_defined (res : R) :
  / 8192 < res / 100000 < 8192 ->
  exists t,
    steinhart_hart res = Some t /\
    t = 1 / (ln (res / 100000) / 3950 + 1 / (25 + 273.15)) - 273.15 /\
    -124 < t < 15727.
Proof.
  intros Hr. pose proof (ln_bounded _ Hr) as Hl.
  assert (Hp : 0 < res / 100000).
  { apply Rlt_trans with (/ 8192); lra. }
  unfold steinhart_hart, THERMISTORNOMINAL, BCOEFFICIENT, TEMPERATURENOMINAL.
  cbn.
  destruct (Req_EM_T 100000 0) as [E|_]; [lra|]. cbn.
  destruct (Rlt_dec 0 (res / 100000)) as [_|N]; [|contradiction]. cbn.
  destruct (Req_EM_T 3950 0) as [E|_]; [lra|]. cbn.
  destruct (Req_EM_T _ 0) as [E|_]; [lra|]. cbn.
  replace (10 / (10 * 1)) with 1 by lra.
  replace (27315 / (10 * (10 * 1))) with 273.15 by lra.
  set (L := ln (res / 100000)) in *.
  set (d := L / 3950 + _).
  assert (Hd : 1 / 16000 < d < 1 / 150) by (subst d; lra).
  destruct (Req_EM_T d 0) as [E|_]; [lra|].
  eexists. split; [reflexivity|].
  destruct (inv_between (1 / 16000) (1 / 150) d) as [H1 H2]; lra.
Qed.

Lemma check_Temperature_stages (analogRead : nat -> Z) (average res t : R) :
  adc_average (take_samples analogRead) = Some average ->
  resistance average = Some res ->
  steinhart_hart res = Some t ->
  -32768 <= t <= 32767 ->
  check_Temperature analogRead = Some (Rtrunc t).
Proof.
  intros Ha Hr Hs Ht. unfold check_Temperature.
  rewrite Ha. cbn [bind]. rewrite Hr. cbn [bind]. rewrite Hs. cbn [bind].
  cbn [to_int Ideal].
  pose proof (Rtrunc_between t (-32768) 32767) as Hb.
  destruct Hb as [Hlo Hhi]; [lia | lra |].
  unfold in_int, INT_MIN, INT_MAX.
  apply Z.leb_le in Hlo, Hhi. now rewrite Hlo, Hhi.
Qed.

(** C7.  Whenever the mean of the samples lies strictly between 0 and 1023,
    every division of the conversion has a divisor other than zero and the
    logarithm has a positive argument: the average, the resistance and the
    Steinhart-Hart temperature are real numbers, the resistance is positive,
    and [check_Temperature] returns the temperature truncated. *)
Theorem conversion_defined (analogRead : nat -> Z) :
  (0 < total (take_samples analogRead) < Z.of_nat NUMSAMPLES * 1023)%Z ->
  exists average res steinhart : R,
    adc_average (take_samples analogRead) = Some average /\
    0 < average < 1023 /\
    resistance average = Some res /\
    0 < res /\
    steinhart_hart res = Some steinhart /\
    check_Temperature analogRead = Some (Rtrunc steinhart).
Proof.
  intros [Hlo Hhi]. set (n := total (take_samples analogRead)) in *.
  assert (Hn : 1 <= IZR n <= 5114).
  { change (Z.of_nat NUMSAMPLES) with 5%Z in Hhi.
    split; apply IZR_le; lia. }
  pose proof (average_defined (take_samples analogRead)) as Ha. fold n in Ha.
  assert (Hav : 0 < IZR n / 5 < 1023) by lra.
  destruct (resistance_defined _ Hav) as (res & Hr & Hres & Hratio).
  assert (Hd : 0 < 1023 - IZR n / 5) by lra.
  assert (Hq : / 8192 < res / 100000 < 8192).
  { rewrite Hratio. split; [apply div_above | apply div_below]; lra. }
  destruct (steinhart_defined _ Hq) as (t & Hs & _ & Ht).
  exists (IZR n / 5), res, t. repeat split; try assumption; try lra.
  apply (check_Temperature_stages _ _ _ _ Ha Hr Hs). lra.
Qed.

Lemma conversion_defined_witness :
  exists average res steinhart : R,
    adc_average (take_samples (fun _ => 512%Z)) = Some average /\
    0 < average < 1023 /\
    resistance average = Some res /\
    0 < res /\
    steinhart_hart res = Some steinhart /\
    check_Temperature (fun _ => 512%Z) = Some (Rtrunc steinhart).
Proof.
  apply (conversion_defined (fun _ => 512%Z)). vm_compute. split; reflexivity.
Defined.

(** The reference conversion: five samples of 512. *)
Lemma reference_values :
  exists res t : R,
    adc_average (take_samples (fun _ => 512%Z)) = Some 512 /\
    resistance 512 = Some res /\ 100195 < res < 100196 /\
    steinhart_hart res = Some t /\ 24.95 < t < 24.96 /\
    check_Temperature (fun _ => 512%Z) = Some 24%Z.
Proof.
  assert (Ha : adc_average (take_samples (fun _ => 512%Z)) = Some 512).
  { rewrite average_defined. f_equal. cbn. lra. }
  destruct (resistance_defined 512) as (res & Hr & Hres & Hratio); [lra|].
  assert (Hx : res / 100000 = 512 / 511) by (rewrite Hratio; lra).
  destruct (ln_between (512 / 511)) as [Hl1 Hl2]; [lra | lra |].
  destruct (steinhart_defined res) as (t & Hs & Ht & _); [rewrite Hx; lra|].
  rewrite Hx in Ht.
  set (L := ln (512 / 511)) in *.
  assert (HL : 1 / 512 < L < 1 / 511) by lra.
  set (d := L / 3950 + 1 / (25 + 273.15)) in *.
  destruct (inv_between (1 / 298.11) (1 / 298.10) d) as [H1 H2];
    [lra | subst d; lra | subst d; lra |].
  assert (Hb : 24.95 < t < 24.96) by lra.
  exists res, t. repeat split; try assumption; try lra.
  rewrite (check_Temperature_stages _ _ _ _ Ha Hr Hs) by lra.
  f_equal. apply Rtrunc_nonneg; [lra | lia].
Qed.

(** C9 refuted as stated.  For five samples of 512 the Steinhart-Hart
    temperature is not within a tenth of a degree of 24.85, and the function
    returns 24. *)
Lemma reference_not_24_85 :
  ~ (exists res t : R,
        resistance 512 = Some res /\
        steinhart_hart res = Some t /\
        Rabs (t - 24.85) <= 0.1) /\
  check_Temperature (fun _ => 512%Z) = Some 24%Z.
Proof.
  split; [|destruct reference_values as (? & ? & ? & ? & ? & ? & ? & H);
           exact H].
  intros (res & t & Hr & Hs & Hd).
  destruct reference_values as (res' & t' & _ & Hr' & _ & Hs' & Ht' & _).
  rewrite Hr in Hr'. injection Hr' as <-.
  rewrite Hs in Hs'. injection Hs' as <-.
  rewrite Rabs_right in Hd by lra. lra.
Qed.

(** C9 as amended.  For five samples of 512 the mean is 512, the resistance
    lies between 100195 and 100196 ohms, the Steinhart-Hart temperature lies
    between 24.95 and 24.96 degrees Celsius, and [check_Temperature], which
    returns an [int], returns 24. *)
Theorem reference_conversion :
  exists res t : R,
    adc_average (take_samples (fun _ => 512%Z)) = Some 512 /\
    resistance 512 = Some res /\ 100195 < res < 100196 /\
    steinhart_hart res = Some t /\ 24.95 < t < 24.96 /\
    check_Temperature (fun _ => 512%Z) = Some 24%Z.
Proof. exact reference_values. Qed.

End Thermistor.

(** ** check_Temperature in binary32 *)

Module Saturation.
Import Binary32.

Section WithLog.
Variable log : spec_float -> spec_float.

Let A : Arith spec_float := arith log.

(** In binary32 every statement of the conversion returns a value, so the
    Steinhart-Hart block is one expression over [log]. *)
Lemma steinhart_hart_binary32 (res : spec_float) :
  @UVCuring.steinhart_hart _ A res
  = Some (sub (div (literal 10 1)
                   (add (div (log (div res (of_Z UVCuring.THERMISTORNOMINAL)))
                             (of_Z UVCuring.BCOEFFICIENT))
                        (div (literal 10 1)
                             (add (of_Z UVCuring.TEMPERATURENOMINAL)
                                  (literal 27315 2)))))
              (literal 27315 2)).
Proof. reflexivity. Qed.

Lemma check_Temperature_binary32 (analogRead : nat -> Z) :
  @UVCuring.check_Temperature _ A analogRead
  = (average <- @UVCuring.adc_average _ A (UVCuring.take_samples analogRead) ;;
     res <- @UVCuring.resistance _ A average ;;
     steinhart <- @UVCuring.steinhart_hart _ A res ;;
     trunc steinhart).
Proof. reflexivity. Qed.

(** The conversion at the top of the ADC range: the divisor is zero, the
    resistance is +infinity, and the final inversion brings it back to 0. *)
Lemma saturate_top :
  log (S754_infinity false) = S754_infinity false ->
  @UVCuring.check_Temperature _ A (fun _ => 1023) = Some (-273).
Proof.
  intros Hlog. rewrite check_Temperature_binary32.
  replace (@UVCuring.adc_average _ A (UVCuring.take_samples (fun _ => 1023)))
    with (Some (of_Z 1023)) by (vm_compute; reflexivity).
  cbn [bind].
  replace (@UVCuring.resistance _ A (of_Z 1023))
    with (Some (S754_infinity false)) by (vm_compute; reflexivity).
  cbn [bind]. rewrite steinhart_hart_binary32. cbn [bind].
  replace (div (S754_infinity false) (of_Z UVCuring.THERMISTORNOMINAL))
    with (S754_infinity false) by (vm_compute; reflexivity).
  rewrite Hlog. vm_compute. reflexivity.
Qed.

(** The conversion at the bottom of the range: [1023 / average] is
    +infinity, the resistance is 0 and its logarithm -infinity. *)
Lemma saturate_bottom :
  log (S754_zero false) = S754_infinity true ->
  @UVCuring.check_Temperature _ A (fun _ => 0) = Some (-273).
Proof.
  intros Hlog. rewrite check_Temperature_binary32.
  replace (@UVCuring.adc_average _ A (UVCuring.take_samples (fun _ => 0)))
    with (Some (S754_zero false)) by (vm_compute; reflexivity).
  cbn [bind].
  replace (@UVCuring.resistance _ A (S754_zero false))
    with (Some (S754_zero false)) by (vm_compute; reflexivity).
  cbn [bind]. rewrite steinhart_hart_binary32. cbn [bind].
  replace (div (S754_zero false) (of_Z UVCuring.THERMISTORNOMINAL))
    with (S754_zero false) by (vm_compute; reflexivity).
  rewrite Hlog. vm_compute. reflexivity.
Qed.

(** Samples in the ADC range whose mean is 0 are all 0, and samples whose
    mean is 1023 are all 1023. *)
Lemma samples_at_end (analogRead : nat -> Z) (v : Z) :
  (forall k : nat, 0 <= analogRead k <= 1023) ->
  v = 0 \/ v = 1023 ->
  UVCuring.total (UVCuring.take_samples analogRead)
  = Z.of_nat UVCuring.NUMSAMPLES * v ->
  UVCuring.take_samples analogRead = UVCuring.take_samples (fun _ => v).
Proof.
  intros Hr Hv Ht. unfold UVCuring.take_samples, UVCuring.total in *.
  cbn in *.
  pose proof (Hr 0%nat). pose proof (Hr 1%nat). pose proof (Hr 2%nat).
  pose proof (Hr 3%nat). pose proof (Hr 4%nat).
  assert (analogRead 0%nat = v /\ analogRead 1%nat = v /\
          analogRead 2%nat = v /\ analogRead 3%nat = v /\
          analogRead 4%nat = v) as (-> & -> & -> & -> & ->)
      by (destruct Hv; subst v; lia).
  reflexivity.
Qed.

(** The variant overwrites [steinhart] before the inversion: what it
    returns is the value of one closed expression. *)
Lemma variant_binary32 (analogRead : nat -> Z) (r : Z) :
  @Part000.check_Temperature _ A analogRead r
  = trunc (sub (div (literal 10 1)
                    (add (div (literal 10 1)
                              (of_Z Part000.TEMPERATURENOMINAL))
                         (literal 27315 2)))
               (literal 27315 2)).
Proof. reflexivity. Qed.

End WithLog.

(** C8.  With a [log] that is +infinity at +infinity and -infinity at 0,
    the conversion of samples whose mean is 0 or 1023 returns -273: the
    division by zero yields an infinity, the final inversion turns it into
    zero, and the value that reaches the caller is the integer -273. *)
Theorem extreme_mean_saturates (log : spec_float -> spec_float)
        (analogRead : nat -> Z) :
  log_at_ends log ->
  (forall k : nat, 0 <= analogRead k <= 1023) ->
  UVCuring.total (UVCuring.take_samples analogRead) = 0 \/
  UVCuring.total (UVCuring.take_samples analogRead)
  = Z.of_nat UVCuring.NUMSAMPLES * 1023 ->
  @UVCuring.check_Temperature _ (arith log) analogRead = Some (-273).
Proof.
  intros [Htop Hbot] Hr Hm.
  rewrite check_Temperature_binary32.
  destruct Hm as [Hm|Hm].
  - rewrite (samples_at_end analogRead 0 Hr) by (auto; rewrite Hm; reflexivity).
    rewrite <- check_Temperature_binary32. now apply saturate_bottom.
  - rewrite (samples_at_end analogRead 1023 Hr) by auto.
    rewrite <- check_Temperature_binary32. now apply saturate_top.
Qed.

Lemma extreme_mean_saturates_witness :
  @UVCuring.check_Temperature _ (arith coarse_log) (fun _ => 1023)
  = Some (-273).
Proof.
  apply (extreme_mean_saturates coarse_log (fun _ => 1023)).
  - split; reflexivity.
  - intros k. lia.
  - right. reflexivity.
Defined.

(** C10.  In the variant, [check_Temperature] returns the same value, -273,
    for any two sample sequences and any resistor value, whatever [log]
    returns: the assignment [steinhart =+ ...] discards what was computed
    from the samples. *)
Theorem variant_ignores_samples (log : spec_float -> spec_float)
        (reads1 reads2 : nat -> Z) (r : Z) :
  @Part000.check_Temperature _ (arith log) reads1 r
  = @Part000.check_Temperature _ (arith log) reads2 r /\
  @Part000.check_Temperature _ (arith log) reads1 r = Some (-273).
Proof.
  rewrite !variant_binary32. split; [reflexivity|].
  vm_compute. reflexivity.
Qed.

End Saturation.

(** ** Passes and runs of UVCuring.ino *)

Module Passes.
Import UVCuring Button.

Lemma armed_plate_temp (i : tick) (s : state) :
  plate_temp (armed i s) = plate i.
Proof.
  unfold armed, stamp, debounce, sense. cbn. tests.
Qed.

Lemma loop_keeps_running (i : tick) (s : state) :
  cycle_run (armed i s) = true ->
  finish_time (armed i s) > millis (t_expire (clk i)) ->
  cycle_run (loop i s) = true.
Proof.
  intros Hr He. unfold loop, decide. rewrite Hr. cbn [negb andb].
  replace (_ <=? millis (t_expire (clk i))) with false
    by (symmetry; apply Z.leb_gt; lia).
  cbn. tests.
Qed.

(** X1.  A pass that enters the decision chain with the cycle not running ends
    idle whatever the two temperatures are: flags cleared, both relays
    released, red LEDs off, amber LED on, both timestamps zero and zero
    minutes reported. *)
Theorem idle_pass (i : tick) (s : state) :
  cycle_run (armed i s) = false ->
  cycle_run (loop i s) = false /\
  heating (loop i s) = false /\
  out (loop i s) = mkPins LOW LOW LOW LOW HIGH /\
  start_time (loop i s) = 0 /\
  finish_time (loop i s) = 0 /\
  minutes (loop i s) = 0.
Proof.
  intros Hr. destruct (loop_stopped i s Hr) as (Hc & Hs & Hf).
  split; [exact Hc|]. split; [|split; [|split; [exact Hs|split; [exact Hf|]]]].
  - unfold loop. now rewrite (Cycle.decide_idle _ _ Hr).
  - unfold loop. now rewrite (Cycle.decide_idle _ _ Hr).
  - unfold minutes. rewrite Hs, Hf. reflexivity.
Qed.

Lemma idle_pass_witness :
  out (loop (Samples.pass 100 HIGH 99) setup) = mkPins LOW LOW LOW LOW HIGH.
Proof.
  apply (idle_pass (Samples.pass 100 HIGH 99) setup). reflexivity.
Defined.

(** X2.  Every pass ends with one of three output patterns.  [heating] is set
    exactly with the pattern that energizes both relays; a pass that ends
    with the cycle not running ends with the idle pattern; the first red LED
    always shows the level of the heater relay, and the amber LED is on
    exactly when the heater relay is released. *)
Theorem pass_outputs (i : tick) (s : state) :
  (out (loop i s) = mkPins LOW LOW LOW LOW HIGH \/
   out (loop i s) = mkPins HIGH HIGH HIGH HIGH LOW \/
   out (loop i s) = mkPins HIGH LOW HIGH LOW LOW) /\
  (heating (loop i s) = true <->
   out (loop i s) = mkPins HIGH HIGH HIGH HIGH LOW) /\
  (cycle_run (loop i s) = false ->
   out (loop i s) = mkPins LOW LOW LOW LOW HIGH) /\
  LED01 (out (loop i s)) = relay_one (out (loop i s)) /\
  (LED03 (out (loop i s)) = HIGH <-> relay_one (out (loop i s)) = LOW).
Proof.
  unfold loop, decide, idle_pins, heating_pins, hold_pins.
  destruct (cycle_run (armed i s)) eqn:Hr; cbn [negb andb].
  - destruct (_ <=? millis (t_expire (clk i))).
    + cbn. intuition congruence.
    + destruct (_ && _).
      * cbn. rewrite Hr. intuition congruence.
      * destruct (_ && _); cbn; rewrite Hr; intuition congruence.
  - cbn. intuition congruence.
Qed.

(** X3.  The fallback branch.  When the clock passes [finish_time] between the
    expiry test and the tests of the two running branches, the pass writes
    the idle outputs and clears [heating] but leaves [cycle_run] set; a
    later pass whose clock is at or past [finish_time] then ends the
    cycle. *)
Theorem late_clock_falls_through (i : tick) (s : state) :
  cycle_run (armed i s) = true ->
  finish_time (armed i s) > millis (t_expire (clk i)) ->
  finish_time (armed i s) <= millis (t_heat (clk i)) ->
  finish_time (armed i s) <= millis (t_hold (clk i)) ->
  cycle_run (loop i s) = true /\
  heating (loop i s) = false /\
  out (loop i s) = mkPins LOW LOW LOW LOW HIGH /\
  forall j : tick,
    finish_time (armed i s) <= millis (t_expire (clk j)) ->
    cycle_run (loop j (loop i s)) = false.
Proof.
  intros Hr He Hh Hd.
  assert (E : decide i (armed i s)
              = set_out idle_pins (set_heating false (armed i s))).
  { unfold decide. rewrite Hr. cbn [negb andb].
    replace (_ <=? millis (t_expire (clk i))) with false
      by (symmetry; apply Z.leb_gt; lia).
    replace (_ >? millis (t_heat (clk i))) with false
      by (symmetry; rewrite Z.gtb_ltb; apply Z.ltb_ge; lia).
    replace (_ >? millis (t_hold (clk i))) with false
      by (symmetry; rewrite Z.gtb_ltb; apply Z.ltb_ge; lia).
    reflexivity. }
  assert (Hc : cycle_run (loop i s) = true).
  { unfold loop. rewrite E. exact Hr. }
  split; [exact Hc|]. split; [unfold loop; now rewrite E|].
  split; [unfold loop; now rewrite E|].
  intros j Hj. apply (expiry_from_start j (loop i s) Hc).
  destruct (loop_timestamps i s) as [_ ->]. exact Hj.
Qed.

Lemma late_clock_falls_through_witness :
  cycle_run (loop (Cases.slipping 7200399 7200400) Samples.under_way) = true /\
  out (loop (Cases.slipping 7200399 7200400) Samples.under_way)
  = mkPins LOW LOW LOW LOW HIGH.
Proof.
  destruct (late_clock_falls_through (Cases.slipping 7200399 7200400)
              Samples.under_way) as (H1 & _ & H2 & _);
    [vm_compute; congruence ..|].
  split; assumption.
Defined.

(** X4.  With a clock that stands still during the pass the fallback branch is
    not taken: a pass that ends with the cycle running has the heater relay
    energized and the amber LED off, and it sets [heating] and energizes
    the UV relay exactly when the plate is below the target. *)
Theorem steady_running_outputs (now : Z) (i : tick) (s : state) :
  clk i = steady now ->
  cycle_run (loop i s) = true ->
  energized (relay_one (out (loop i s))) /\
  LED03 (out (loop i s)) = LOW /\
  (heating (loop i s) = true <-> plate i < target_temp) /\
  (energized (relay_two (out (loop i s))) <-> plate i < target_temp).
Proof.
  intros Hk.
  unfold loop, decide, energized, idle_pins, heating_pins, hold_pins.
  rewrite <- (armed_plate_temp i s).
  destruct (cycle_run (armed i s)) eqn:Hr; cbn [negb andb];
    [|cbn; rewrite Hr; discriminate].
  rewrite Hk. cbn [t_expire t_heat t_hold steady].
  destruct (_ <=? millis now) eqn:He; [cbn; discriminate|].
  apply Z.leb_gt in He.
  replace (_ >? millis now) with true by (symmetry; apply Z.gtb_lt; lia).
  cbn [andb].
  destruct (plate_temp (armed i s) <? target_temp) eqn:Ht.
  - apply Z.ltb_lt in Ht. cbn. intuition congruence.
  - apply Z.ltb_ge in Ht.
    replace (_ >=? target_temp) with true
      by (symmetry; apply Z.geb_le; lia).
    cbn. intros _. repeat split; try congruence; try lia; discriminate.
Qed.

Lemma steady_running_outputs_witness :
  energized (relay_one (out (loop (Samples.pass 2000 HIGH 65)
                                  Samples.under_way))).
Proof.
  apply (steady_running_outputs 2000 (Samples.pass 2000 HIGH 65)
           Samples.under_way); reflexivity.
Defined.

Lemma loop_cycle_run (i : tick) (s : state) :
  cycle_run (loop i s)
  = cycle_run (armed i s)
    && negb (finish_time (armed i s) <=? millis (t_expire (clk i))).
Proof.
  unfold loop, decide.
  destruct (cycle_run (armed i s)) eqn:Hr; cbn [negb andb].
  - destruct (_ <=? millis (t_expire (clk i))); cbn; [reflexivity|].
    tests.
  - cbn. exact Hr.
Qed.

(** X5.  The cycle starts only in a pass with a press edge, and it stops only in
    a pass with a press edge or in a pass whose clock has reached
    [finish_time]. *)
Theorem cycle_run_changes (i : tick) (s : state) :
  (cycle_run s = false -> cycle_run (loop i s) = true ->
   press_edge i s = true) /\
  (cycle_run s = true -> cycle_run (loop i s) = false ->
   press_edge i s = true \/
   finish_time (armed i s) <= millis (t_expire (clk i))).
Proof.
  rewrite loop_cycle_run. split; intros Hs Hl.
  - destruct (press_edge i s) eqn:Hp; [reflexivity|].
    destruct (armed_no_press i s Hp) as [Hc _].
    rewrite Hc, Hs in Hl. discriminate.
  - destruct (press_edge i s) eqn:Hp; [now left|]. right.
    destruct (armed_no_press i s Hp) as [Hc _].
    rewrite Hc, Hs in Hl. cbn in Hl.
    apply negb_false_iff in Hl. now apply Z.leb_le.
Qed.

Lemma cycle_run_changes_witness :
  press_edge (Samples.pass 400 LOW 20) (run (Samples.pressing 20) setup)
  = true.
Proof.
  apply (cycle_run_changes (Samples.pass 400 LOW 20)
           (run (Samples.pressing 20) setup)); reflexivity.
Defined.



(** X7.  A button that is down from power-up on never starts a cycle: as long as
    every reading is LOW the sketch stays idle. *)
Theorem held_from_setup (tr : list tick) :
  Forall (fun k => reading k = LOW) tr ->
  cycle_run (run tr setup) = false /\
  buttonState (run tr setup) = LOW /\
  out (run tr setup) = mkPins LOW LOW LOW LOW HIGH.
Proof.
  intros Hf.
  assert (H : cycle_run (run tr setup) = false /\
              buttonState (run tr setup) = LOW /\
              lastButtonState (run tr setup) = LOW /\
              out (run tr setup) = idle_pins).
  { induction tr as [|i tr IH] using rev_ind.
    - cbn. auto.
    - apply Forall_app in Hf. destruct Hf as [Htr Hi].
      inversion Hi as [|? ? Hr _]; subst.
      destruct (IH Htr) as (Hc & Hb & Hl & Ho). rewrite Cycle.run_snoc.
      set (s := run tr setup) in *.
      assert (Hm : committed i s = false).
      { rewrite committed_iff, Hr, Hb. cbn. apply andb_false_r. }
      assert (Hp : press_edge i s = false).
      { unfold press_edge. now rewrite Hm. }
      destruct (armed_no_press i s Hp) as [Ha _]. rewrite Hc in Ha.
      destruct (loop_stopped i s Ha) as (Hc' & _).
      split; [exact Hc'|]. split.
      + now rewrite (not_committed_buttonState _ _ Hm).
      + split; [exact Hr|]. unfold loop.
        now rewrite (Cycle.decide_idle _ _ Ha). }
  destruct H as (Hc & Hb & _ & Ho). auto.
Qed.

Lemma held_from_setup_witness :
  cycle_run (run [Samples.pass 100 LOW 20; Samples.pass 200 LOW 20] setup)
  = false.
Proof.
  apply (held_from_setup [Samples.pass 100 LOW 20; Samples.pass 200 LOW 20]).
  repeat constructor.
Defined.

(** X8.  Without a press edge a running cycle is not cut short: while every pass
    has its clock below [finish_time], the cycle keeps running and
    [finish_time] keeps its value. *)
Theorem cycle_keeps_running (tr : list tick) :
  forall s : state,
    cycle_run s = true ->
    count press_edge tr s = 0%nat ->
    Forall (fun k => finish_time s > millis (t_expire (clk k))) tr ->
    cycle_run (run tr s) = true /\ finish_time (run tr s) = finish_time s.
Proof.
  induction tr as [|i tr IH]; intros s Hr Hc Hf; [cbn; auto|].
  cbn [count] in Hc. destruct (press_edge i s) eqn:Hp; [discriminate|].
  inversion Hf as [|? ? Hi Htr]; subst.
  destruct (armed_no_press i s Hp) as [Ha Hd]. rewrite Hr in Ha.
  pose proof (armed_timestamps i s) as T. rewrite Ha in T.
  destruct T as [_ Tf]. rewrite Hd in Tf.
  destruct (loop_timestamps i s) as [_ Lf]. rewrite Tf in Lf.
  assert (Hl : cycle_run (loop i s) = true).
  { apply loop_keeps_running; [exact Ha | rewrite Tf; exact Hi]. }
  change (run (i :: tr) s) with (run tr (loop i s)).
  rewrite <- Lf in Htr |- *. apply IH; assumption.
Qed.

Lemma cycle_keeps_running_witness :
  cycle_run (run [Samples.pass 2000 HIGH 20; Samples.pass 3000 HIGH 65]
                 Samples.under_way) = true.
Proof.
  apply (cycle_keeps_running
           [Samples.pass 2000 HIGH 20; Samples.pass 3000 HIGH 65]
           Samples.under_way).
  - reflexivity.
  - vm_compute. reflexivity.
  - repeat constructor.
Defined.

Lemma no_press_run (tr : list tick) :
  forall s : state,
    count press_edge tr s = 0%nat ->
    cycle_run (run tr s) = false \/
    (cycle_run s = true /\ finish_time (run tr s) = finish_time s).
Proof.
  induction tr as [|i tr IH]; intros s Hc.
  - cbn. destruct (cycle_run s); auto.
  - cbn [count] in Hc. destruct (press_edge i s) eqn:Hp; [discriminate|].
    change (run (i :: tr) s) with (run tr (loop i s)).
    destruct (IH (loop i s) Hc) as [H|[Hl Hf]]; [now left|].
    right. destruct (armed_no_press i s Hp) as [Ha Hd].
    rewrite loop_cycle_run in Hl. apply andb_prop in Hl.
    destruct Hl as [Hl _]. rewrite Ha in Hl. split; [exact Hl|].
    pose proof (armed_timestamps i s) as T. rewrite Ha, Hl in T.
    destruct T as [_ Tf]. destruct (loop_timestamps i s) as [_ Lf].
    congruence.
Qed.

(** X9.  Without a press edge a cycle does not outlast [finish_time]: a run that
    starts with the cycle running and ends with a pass whose clock has
    reached [finish_time] ends with the cycle stopped. *)
Theorem cycle_ends_by_finish (tr : list tick) (i : tick) (s : state) :
  cycle_run s = true ->
  count press_edge (tr ++ [i]) s = 0%nat ->
  finish_time s <= millis (t_expire (clk i)) ->
  cycle_run (run (tr ++ [i]) s) = false.
Proof.
  intros Hr Hc He. rewrite Debounce.count_app in Hc.
  assert (Htr : count press_edge tr s = 0%nat) by lia.
  assert (Hi : press_edge i (run tr s) = false).
  { cbn [count] in Hc. destruct (press_edge i (run tr s)); [lia|reflexivity]. }
  rewrite Cycle.run_snoc.
  destruct (no_press_run tr s Htr) as [H|[_ Hf]].
  - destruct (armed_no_press i (run tr s) Hi) as [Ha _]. rewrite H in Ha.
    now destruct (loop_stopped _ _ Ha).
  - destruct (cycle_run (run tr s)) eqn:Hrun.
    + apply (expiry_from_start i (run tr s) Hrun). now rewrite Hf.
    + destruct (armed_no_press i (run tr s) Hi) as [Ha _]. rewrite Hrun in Ha.
      now destruct (loop_stopped _ _ Ha).
Qed.

Lemma cycle_ends_by_finish_witness :
  cycle_run (run [Samples.pass 2000 HIGH 20; Samples.pass 7200400 HIGH 20]
                 Samples.under_way) = false.
Proof.
  apply (cycle_ends_by_finish [Samples.pass 2000 HIGH 20]
           (Samples.pass 7200400 HIGH 20) Samples.under_way).
  - reflexivity.
  - vm_compute. reflexivity.
  - vm_compute. discriminate.
Defined.

(** X10.  The time the pass reports while the cycle runs.  With the clock at or
    below [finish_time] it is the whole minutes left; with the clock past
    [finish_time] the unsigned difference wraps and the pass reports the
    minutes of 2^32 milliseconds less the overshoot. *)
Theorem minutes_report (i : tick) (s : state) :
  cycle_run (armed i s) = true ->
  0 <= finish_time (armed i s) < 2 ^ 32 ->
  (millis (t_start (clk i)) <= finish_time (armed i s) ->
   minutes (loop i s)
   = (finish_time (armed i s) - millis (t_start (clk i))) / 60000) /\
  (finish_time (armed i s) < millis (t_start (clk i)) ->
   minutes (loop i s)
   = (2 ^ 32 - (millis (t_start (clk i)) - finish_time (armed i s))) / 60000).
Proof.
  intros Hr Hf. unfold minutes.
  destruct (loop_timestamps i s) as [-> ->].
  pose proof (armed_timestamps i s) as T. rewrite Hr in T.
  destruct T as [-> _].
  pose proof (wrap32_range (t_start (clk i))) as Hs.
  fold (millis (t_start (clk i))) in Hs.
  split; intros H; f_equal; unfold wrap32 at 1.
  - apply Z.mod_small. lia.
  - symmetry. apply (Z.mod_unique _ _ (-1)); lia.
Qed.

Lemma minutes_report_witness :
  minutes (loop (Samples.pass 400 LOW 20) (run (Samples.pressing 20) setup))
  = 120 /\
  minutes (loop (Samples.pass 7200500 HIGH 20) Samples.under_way) = 71582.
Proof.
  split.
  - destruct (minutes_report (Samples.pass 400 LOW 20)
                (run (Samples.pressing 20) setup)) as [H _];
      [reflexivity | vm_compute; split; congruence |].
    rewrite H by (vm_compute; congruence). reflexivity.
  - destruct (minutes_report (Samples.pass 7200500 HIGH 20)
                Samples.under_way) as [_ H];
      [reflexivity | vm_compute; split; congruence |].
    rewrite H by reflexivity. reflexivity.
Defined.

End Passes.

(** ** The conversion as a function of the samples *)

Module Conversion.
Import UVCuring Thermistor.
Local Open Scope R_scope.

Lemma Int_part_le (x y : R) : x <= y -> (Int_part x <= Int_part y)%Z.
Proof.
  intros H. destruct (base_Int_part x) as [Hx _].
  destruct (base_Int_part y) as [_ Hy].
  assert (Hlt : IZR (Int_part x) < IZR (Int_part y + 1)).
  { rewrite plus_IZR. lra. }
  apply lt_IZR in Hlt. lia.
Qed.

Lemma Int_part_nonneg (x : R) : 0 <= x -> (0 <= Int_part x)%Z.
Proof.
  intros H. destruct (base_Int_part x) as [_ Hx].
  assert (Hlt : IZR (-1) < IZR (Int_part x)) by lra.
  apply lt_IZR in Hlt. lia.
Qed.

Lemma Rtrunc_le (x y : R) : x <= y -> (Rtrunc x <= Rtrunc y)%Z.
Proof.
  intros H. unfold Rtrunc.
  destruct (Rle_dec 0 x) as [Px|Nx], (Rle_dec 0 y) as [Py|Ny]; try lra.
  - now apply Int_part_le.
  - assert (Hx : 0 <= - x) by lra.
    apply Int_part_nonneg in Hx. apply Int_part_nonneg in Py. lia.
  - assert (Hle : - y <= - x) by lra. apply Int_part_le in Hle. lia.
Qed.

(** The quotient [average / (1023 - average)] grows with the average. *)
Lemma ratio_increasing (a1 a2 : R) :
  0 < a1 -> a1 < a2 -> a2 < 1023 ->
  a1 / (1023 - a1) < a2 / (1023 - a2).
Proof.
  intros H0 H1 H2.
  apply div_above; [lra|].
  replace (a1 / (1023 - a1) * (1023 - a2))
    with (a1 * (1023 - a2) / (1023 - a1)) by (field; lra).
  apply div_below; [lra | nra].
Qed.

(** X11.  A larger sum of samples gives a larger resistance and a lower
    temperature: the Steinhart-Hart value falls strictly, and the integer
    [check_Temperature] returns does not rise. *)
Theorem reading_decreases (reads1 reads2 : nat -> Z) :
  (0 < total (take_samples reads1))%Z ->
  (total (take_samples reads1) < total (take_samples reads2))%Z ->
  (total (take_samples reads2) < Z.of_nat NUMSAMPLES * 1023)%Z ->
  exists res1 res2 t1 t2 : R,
    resistance (IZR (total (take_samples reads1)) / 5) = Some res1 /\
    resistance (IZR (total (take_samples reads2)) / 5) = Some res2 /\
    res1 < res2 /\
    steinhart_hart res1 = Some t1 /\
    steinhart_hart res2 = Some t2 /\
    t2 < t1 /\
    check_Temperature reads1 = Some (Rtrunc t1) /\
    check_Temperature reads2 = Some (Rtrunc t2) /\
    (Rtrunc t2 <= Rtrunc t1)%Z.
Proof.
  intros H0 H12 H2.
  set (n1 := total (take_samples reads1)) in *.
  set (n2 := total (take_samples reads2)) in *.
  change (Z.of_nat NUMSAMPLES) with 5%Z in H2.
  assert (Hn1 : 1 <= IZR n1) by (apply IZR_le; lia).
  assert (Hn12 : IZR n1 + 1 <= IZR n2).
  { rewrite <- plus_IZR. apply IZR_le. lia. }
  assert (Hn2 : IZR n2 <= 5114) by (apply IZR_le; lia).
  pose proof (average_defined (take_samples reads1)) as Ha1. fold n1 in Ha1.
  pose proof (average_defined (take_samples reads2)) as Ha2. fold n2 in Ha2.
  destruct (resistance_defined (IZR n1 / 5)) as (res1 & Hr1 & _ & Hq1);
    [lra|].
  destruct (resistance_defined (IZR n2 / 5)) as (res2 & Hr2 & _ & Hq2);
    [lra|].
  assert (Hq : res1 / 100000 < res2 / 100000).
  { rewrite Hq1, Hq2. apply ratio_increasing; lra. }
  assert (Hb1 : / 8192 < res1 / 100000 < 8192).
  { rewrite Hq1. split; [apply div_above | apply div_below]; lra. }
  assert (Hb2 : / 8192 < res2 / 100000 < 8192).
  { rewrite Hq2. split; [apply div_above | apply div_below]; lra. }
  destruct (steinhart_defined _ Hb1) as (t1 & Hs1 & Ht1 & Hi1).
  destruct (steinhart_defined _ Hb2) as (t2 & Hs2 & Ht2 & Hi2).
  assert (Hl : ln (res1 / 100000) < ln (res2 / 100000)).
  { apply ln_increasing; [|exact Hq]. apply Rlt_trans with (/ 8192); lra. }
  pose proof (ln_bounded _ Hb1) as Hl1. pose proof (ln_bounded _ Hb2) as Hl2.
  assert (Ht : t2 < t1).
  { rewrite Ht1, Ht2.
    set (d1 := ln (res1 / 100000) / 3950 + 1 / (25 + 273.15)) in *.
    set (d2 := ln (res2 / 100000) / 3950 + 1 / (25 + 273.15)) in *.
    assert (0 < d1) by (subst d1; lra).
    assert (d1 < d2) by (subst d1 d2; lra).
    assert (/ d2 < / d1) by (apply Rinv_lt_contravar; nra).
    lra. }
  exists res1, res2, t1, t2.
  repeat split; try assumption; try lra.
  - apply (check_Temperature_stages _ _ _ _ Ha1 Hr1 Hs1). lra.
  - apply (check_Temperature_stages _ _ _ _ Ha2 Hr2 Hs2). lra.
  - apply Rtrunc_le. lra.
Qed.

Lemma reading_decreases_witness :
  exists res1 res2 t1 t2 : R,
    resistance (IZR (total (take_samples (fun _ => 200%Z))) / 5)
    = Some res1 /\
    resistance (IZR (total (take_samples (fun _ => 512%Z))) / 5)
    = Some res2 /\
    res1 < res2 /\
    steinhart_hart res1 = Some t1 /\
    steinhart_hart res2 = Some t2 /\
    t2 < t1 /\
    check_Temperature (fun _ => 200%Z) = Some (Rtrunc t1) /\
    check_Temperature (fun _ => 512%Z) = Some (Rtrunc t2) /\
    (Rtrunc t2 <= Rtrunc t1)%Z.
Proof.
  apply (reading_decreases (fun _ => 200%Z) (fun _ => 512%Z));
    vm_compute; reflexivity.
Defined.

End Conversion.

(** ** A thermistor at the end of the ADC range *)

Module Faults.
Import Binary32 UVCuring.

Lemma extreme_value (log : spec_float -> spec_float) (reads : nat -> Z) :
  log_at_ends log ->
  (forall k : nat, 0 <= reads k <= 1023) ->
  total (take_samples reads) = 0 \/
  total (take_samples reads) = Z.of_nat NUMSAMPLES * 1023 ->
  @check_Temperature _ (arith log) reads = Some (-273).
Proof.
  intros [Htop Hbot] Hr Hm.
  rewrite Saturation.check_Temperature_binary32.
  destruct Hm as [Hm|Hm].
  - rewrite (Saturation.samples_at_end reads 0 Hr)
      by (auto; rewrite Hm; reflexivity).
    rewrite <- Saturation.check_Temperature_binary32.
    now apply Saturation.saturate_bottom.
  - rewrite (Saturation.samples_at_end reads 1023 Hr) by auto.
    rewrite <- Saturation.check_Temperature_binary32.
    now apply Saturation.saturate_top.
Qed.

(** X12.  A plate thermistor that reads 0 or 1023 throughout keeps the heater
    on: the value [check_Temperature] returns for it is below the target,
    so every pass of a running cycle that has not expired sets [heating]
    and energizes both relays. *)
Theorem stuck_sensor_heats (log : spec_float -> spec_float)
        (reads : nat -> Z) (i : tick) (s : state) :
  log_at_ends log ->
  (forall k : nat, 0 <= reads k <= 1023) ->
  total (take_samples reads) = 0 \/
  total (take_samples reads) = Z.of_nat NUMSAMPLES * 1023 ->
  @check_Temperature _ (arith log) reads = Some (plate i) ->
  cycle_run (armed i s) = true ->
  finish_time (armed i s) > millis (t_expire (clk i)) ->
  finish_time (armed i s) > millis (t_heat (clk i)) ->
  heating (loop i s) = true /\
  out (loop i s) = mkPins HIGH HIGH HIGH HIGH LOW.
Proof.
  intros Hlog Hr Hm Hp Hc He Hh.
  rewrite (extreme_value log reads Hlog Hr Hm) in Hp.
  injection Hp as Hp.
  assert (Ht : plate_temp (armed i s) < target_temp).
  { rewrite Passes.armed_plate_temp, <- Hp. reflexivity. }
  unfold loop. rewrite (Cycle.decide_heating _ _ Hc He Hh Ht). cbn. auto.
Qed.

Lemma stuck_sensor_heats_witness :
  heating (loop (Samples.pass 2000 HIGH (-273)) Samples.under_way) = true.
Proof.
  apply (stuck_sensor_heats coarse_log (fun _ => 1023)
           (Samples.pass 2000 HIGH (-273)) Samples.under_way).
  - split; reflexivity.
  - intros k. lia.
  - right. reflexivity.
  - vm_compute. reflexivity.
  - reflexivity.
  - vm_compute. reflexivity.
  - vm_compute. reflexivity.
Defined.

End Faults.

(** ** Passes and runs of the earlier variant *)

Module Variant.
Import Part000.

Lemma variant_run_snoc (tr : list tick) (i : tick) (s : state) :
  run (tr ++ [i]) s = loop i (run tr s).
Proof. unfold run. now rewrite fold_left_app. Qed.

Lemma armed_box_temp (i : tick) (s : state) : box_temp (armed i s) = box i.
Proof. reflexivity. Qed.

(** X13.  [loop()] never writes the amber LED: through every run it keeps the
    level it had at the start, and [setup()] switches it on. *)
Theorem amber_untouched (tr : list tick) :
  (forall s : state, LED03 (out (run tr s)) = LED03 (out s)) /\
  LED03 (out (run tr setup)) = HIGH.
Proof.
  assert (H : forall s : state, LED03 (out (run tr s)) = LED03 (out s)).
  { induction tr as [|i tr IH] using rev_ind; intros s; [reflexivity|].
    rewrite variant_run_snoc. rewrite <- (IH s).
    generalize (run tr s). intros s'. unfold loop, decide.
    repeat match goal with
           | |- context [if ?b then _ else _] => destruct b
           end; reflexivity. }
  split; [exact H|]. now rewrite H.
Qed.

(** X14.  In the variant the heater relay follows the [heating] flag: every pass
    ends with the heater relay closed exactly when [heating] is set, the UV
    relay is closed whenever the heater relay is, and both relays are open
    when the pass ends with the cycle not running. *)
Theorem heater_follows_flag (i : tick) (s : state) :
  (heating (loop i s) = true <-> closed (relay_one (out (loop i s)))) /\
  (closed (relay_one (out (loop i s))) ->
   closed (relay_two (out (loop i s)))) /\
  (cycle_run (loop i s) = false ->
   relay_one (out (loop i s)) = HIGH /\ relay_two (out (loop i s)) = HIGH).
Proof.
  unfold loop, decide, closed. set (a := armed i s).
  assert (Ho : LED03 (out a) = LED03 (out s)) by reflexivity. clearbody a.
  destruct (cycle_run a) eqn:Hr; cbn [negb andb].
  - destruct (_ <=? millis (t_expire (clk i))).
    + cbn. intuition congruence.
    + destruct (_ && _).
      * cbn. intuition congruence.
      * destruct (_ && _); cbn; intuition congruence.
  - cbn. intuition congruence.
Qed.

(** X15.  When the decision chain is entered with the cycle running and
    [finish_time] at or below the clock, the pass clears [cycle_run] and
    [heating], opens both relays and puts both red LEDs out. *)
Theorem variant_expiry_ends_cycle (i : tick) (s : state) :
  cycle_run (armed i s) = true ->
  finish_time (armed i s) <= millis (t_expire (clk i)) ->
  cycle_run (loop i s) = false /\
  heating (loop i s) = false /\
  out (loop i s) = mkPins HIGH HIGH LOW LOW (LED03 (out s)).
Proof.
  intros Hr He. unfold loop, decide. rewrite Hr. cbn [negb andb].
  apply Z.leb_le in He. rewrite He. auto.
Qed.

Lemma variant_expiry_ends_cycle_witness :
  cycle_run (loop (Cases.pass 10300 LOW 20)
                  (run (Cases.start_up 20) setup)) = false.
Proof.
  apply (variant_expiry_ends_cycle (Cases.pass 10300 LOW 20)
           (run (Cases.start_up 20) setup)).
  - vm_compute. reflexivity.
  - vm_compute. discriminate.
Defined.

Lemma heating_pass (i : tick) (s : state) :
  cycle_run (armed i s) = true ->
  finish_time (armed i s) > millis (t_expire (clk i)) ->
  finish_time (armed i s) > millis (t_heat (clk i)) ->
  box i < target_temp ->
  cycle_run (loop i s) = true /\
  heating (loop i s) = true /\
  out (loop i s) = mkPins LOW LOW HIGH HIGH (LED03 (out s)).
Proof.
  intros Hr He Hh Ht. unfold loop, decide. rewrite Hr. cbn [negb andb].
  replace (_ <=? millis (t_expire (clk i))) with false
    by (symmetry; apply Z.leb_gt; lia).
  replace (_ >? millis (t_heat (clk i))) with true
    by (symmetry; apply Z.gtb_lt; lia).
  rewrite armed_box_temp.
  replace (box i <? target_temp) with true
    by (symmetry; apply Z.ltb_lt; lia).
  cbn [andb]. unfold act. cbn [cycle_run heating out]. auto.
Qed.

(** X16.  When the decision chain is entered with the cycle running,
    [finish_time] above the clock and the box below the target, the pass
    sets [heating], closes both relays and lights both red LEDs. *)
Theorem variant_heating_outputs (i : tick) (s : state) :
  cycle_run (armed i s) = true ->
  finish_time (armed i s) > millis (t_expire (clk i)) ->
  finish_time (armed i s) > millis (t_heat (clk i)) ->
  box i < target_temp ->
  cycle_run (loop i s) = true /\
  heating (loop i s) = true /\
  out (loop i s) = mkPins LOW LOW HIGH HIGH (LED03 (out s)).
Proof. exact (heating_pass i s). Qed.

Lemma variant_heating_outputs_witness :
  heating (loop (Cases.pass 200 HIGH 20)
                (loop (Cases.pass 100 HIGH 20) setup)) = true.
Proof.
  apply (variant_heating_outputs (Cases.pass 200 HIGH 20)
           (loop (Cases.pass 100 HIGH 20) setup));
    vm_compute; reflexivity.
Defined.

(** X17.  Fed by its own [check_Temperature], the variant never reaches the
    target: whatever the samples, the resistor value and [log], the box
    temperature it compares is -273, so every pass of a running cycle that
    has not expired heats. *)
Theorem variant_always_heats (log : spec_float -> spec_float)
        (reads : nat -> Z) (r : Z) (i : tick) (s : state) :
  @check_Temperature _ (Binary32.arith log) reads r = Some (box i) ->
  cycle_run (armed i s) = true ->
  finish_time (armed i s) > millis (t_expire (clk i)) ->
  finish_time (armed i s) > millis (t_heat (clk i)) ->
  box i = -273 /\
  heating (loop i s) = true /\
  out (loop i s) = mkPins LOW LOW HIGH HIGH (LED03 (out s)).
Proof.
  intros Hb Hr He Hh. rewrite Saturation.variant_binary32 in Hb.
  match type of Hb with
  | ?t = _ => assert (E : t = Some (-273)) by (vm_compute; reflexivity)
  end.
  rewrite E in Hb. injection Hb as Hb. split; [now symmetry|].
  apply (heating_pass i s Hr He Hh).
  rewrite <- Hb. reflexivity.
Qed.

Lemma variant_always_heats_witness :
  heating (loop (Cases.pass 200 HIGH (-273))
                (loop (Cases.pass 100 HIGH (-273)) setup)) = true.
Proof.
  apply (variant_always_heats Binary32.coarse_log (fun _ => 512) resistance
           (Cases.pass 200 HIGH (-273))
           (loop (Cases.pass 100 HIGH (-273)) setup));
    vm_compute; reflexivity.
Defined.

Lemma variant_pass_heating_running (i : tick) (s : state) :
  heating (loop i s) = true -> cycle_run (loop i s) = true.
Proof.
  unfold loop, decide. generalize (armed i s). intros a.
  destruct (cycle_run a) eqn:Hr; cbn [negb andb].
  - destruct (_ <=? millis (t_expire (clk i))); [cbn; discriminate|].
    destruct (_ && _); [cbn; auto|].
    destruct (_ && _); cbn; discriminate.
  - cbn. discriminate.
Qed.

(** X18.  In every state the variant reaches from [setup()], [heating] is set
    only if [cycle_run] is set. *)
Theorem variant_heating_implies_running (tr : list tick) :
  heating (run tr setup) = true -> cycle_run (run tr setup) = true.
Proof.
  induction tr as [|i tr _] using rev_ind.
  - cbn. discriminate.
  - rewrite variant_run_snoc. apply variant_pass_heating_running.
Qed.

Lemma variant_heating_implies_running_witness :
  cycle_run (run (Cases.start_up 20) setup) = true.
Proof.
  apply (variant_heating_implies_running (Cases.start_up 20)).
  vm_compute. reflexivity.
Defined.

(** X19.  The variant reacts to the opposite level: its debounce block flips
    [cycle_run] exactly in the passes in which the debounced state changes
    to HIGH, and such a pass sets [finish_time] to the clock plus
    [target_time] in [unsigned long] arithmetic. *)
Theorem variant_toggles_on_high (i : tick) (s : state) :
  (xorb (cycle_run (armed i s)) (cycle_run s) = true <->
   buttonState s = LOW /\ buttonState (armed i s) = HIGH) /\
  (buttonState s = LOW -> buttonState (armed i s) = HIGH ->
   finish_time (armed i s)
   = wrap32 (millis (t_press (clk i)) + target_time)).
Proof.
  unfold armed, debounce, sense. cbn.
  destruct (_ >? debounceDelay); cbn;
    destruct (reading i), (buttonState s); cbn;
    destruct (cycle_run s); cbn; intuition congruence.
Qed.

(** X20.  A button that is never pressed never starts a cycle: as long as every
    reading is LOW the variant stays as [setup()] left it, both relays
    open. *)
Theorem variant_unpressed (tr : list tick) :
  Forall (fun k => reading k = LOW) tr ->
  cycle_run (run tr setup) = false /\
  heating (run tr setup) = false /\
  out (run tr setup) = mkPins HIGH HIGH LOW LOW HIGH.
Proof.
  intros Hf.
  assert (H : cycle_run (run tr setup) = false /\
              heating (run tr setup) = false /\
              buttonState (run tr setup) = LOW /\
              out (run tr setup) = mkPins HIGH HIGH LOW LOW HIGH).
  { induction tr as [|i tr IH] using rev_ind; [cbn; auto|].
    apply Forall_app in Hf. destruct Hf as [Htr Hi].
    inversion Hi as [|? ? Hr _]; subst.
    destruct (IH Htr) as (Hc & Hh & Hb & Ho). rewrite variant_run_snoc.
    destruct (run tr setup) as [bt pt h c b lb ld ft o]. cbn in Hc, Hh, Hb, Ho.
    subst. unfold loop, decide, armed, debounce, sense. cbn.
    rewrite Hr. cbn. rewrite andb_false_r. cbn. auto. }
  destruct H as (Hc & Hh & _ & Ho). auto.
Qed.

Lemma variant_unpressed_witness :
  cycle_run (run [Cases.pass 100 LOW 20; Cases.pass 200 LOW 20] setup)
  = false.
Proof.
  apply (variant_unpressed [Cases.pass 100 LOW 20; Cases.pass 200 LOW 20]).
  repeat constructor.
Defined.

End Variant.
